(** * Startup orchestrator of the operator: [cmd/manager/main.go]

    A shallow embedding of the two pieces of logic of the manager binary:

    - [filterGKVsFromAddToScheme], the nested loop that keeps the
      group/version/kind descriptors watched by the operator;
    - [main] and [serveCRMetrics], the start-up sequence, as a program in a
      small trace-and-exit monad run against an oracle for the external
      collaborators (k8sutil, leader, manager, metrics, ...).

    Go strings are byte strings and are modelled by [string]; the [int32]
    ports by [Z]; a Go [error] that may be [nil] by [option error].  A call
    to a collaborator is modelled by what it returns: the blocking calls
    ([leader.Become], [mgr.Start]) are taken at the moment they return. *)

From Stdlib Require Import List String Ascii Bool ZArith Arith Lia.
From Stdlib Require Import DecimalString Permutation Sorted.
Import ListNotations.

Local Open Scope string_scope.
Local Open Scope list_scope.

(** ** schema.GroupVersionKind and the filter *)

Module GVK.

(** [schema.GroupVersionKind] of k8s.io/apimachinery: three strings. *)
Record GroupVersionKind : Type := mkGVK {
  Group : string;
  Version : string;
  Kind : string
}.

Definition GroupVersionKind_eq_dec (a b : GroupVersionKind) : {a = b} + {a <> b}.
Proof. decide equality; apply string_dec. Defined.

(** [matchAnyValue := "*"], the local constant of the filter. *)
Definition matchAnyValue : string := "*".

(** Go's [!=] on strings. *)
Definition strNeq (a b : string) : bool := negb (String.eqb a b).

(** The body of the inner loop up to the test [if match]: the value of the
    variable [match] for one watched resource and one descriptor.  The
    variable starts at [true] and each [if] may reset it to [false]. *)
Definition matchOf (watchedGVK gvk : GroupVersionKind) : bool :=
  let match0 := true in
  if String.eqb (Kind watchedGVK) matchAnyValue
     && String.eqb (Group watchedGVK) matchAnyValue
     && String.eqb (Version watchedGVK) matchAnyValue
  then false
  else
    let match1 :=
      if strNeq (Kind watchedGVK) matchAnyValue
         && strNeq (Kind watchedGVK) (Kind gvk) then false else match0 in
    let match2 :=
      if strNeq (Group watchedGVK) matchAnyValue
         && strNeq (Group watchedGVK) (Group gvk) then false else match1 in
    let match3 :=
      if strNeq (Version watchedGVK) matchAnyValue
         && strNeq (Version watchedGVK) (Version gvk) then false else match2 in
    match3.

Section Filter.

(** [kfdefcontroller.WatchedResources]: the process-wide registry of watch
    specifications.  The package that declares it is not part of the
    sources at hand, so the registry is a parameter of the development. *)
Variable WatchedResources : list GroupVersionKind.

(** One iteration of the inner [for ... range WatchedResources]. *)
Definition innerStep (gvk : GroupVersionKind)
    (ownGVKs : list GroupVersionKind) (watchedGVK : GroupVersionKind)
    : list GroupVersionKind :=
  if matchOf watchedGVK gvk then ownGVKs ++ [gvk] else ownGVKs.

(** One iteration of the outer [for ... range gvks]. *)
Definition outerStep (ownGVKs : list GroupVersionKind)
    (gvk : GroupVersionKind) : list GroupVersionKind :=
  fold_left (innerStep gvk) WatchedResources ownGVKs.

(** [filterGKVsFromAddToScheme]: [ownGVKs] starts empty and is threaded
    through both loops. *)
Definition filterGKVsFromAddToScheme (gvks : list GroupVersionKind)
    : list GroupVersionKind :=
  fold_left outerStep gvks [].

(** Number of specs of the registry that match a descriptor. *)
Definition matchCount (gvk : GroupVersionKind) : nat :=
  List.length (filter (fun watchedGVK => matchOf watchedGVK gvk) WatchedResources).

End Filter.

(** *** The matching rule in the words of the specification (section 4.1) *)

(** A field of a spec accepts a field of a descriptor when it is the wildcard
    marker or the same string. *)
Definition fieldAccepts (specField descField : string) : Prop :=
  specField = "*" \/ specField = descField.

(** The three fields of the spec are all the wildcard. *)
Definition allWildcard (s : GroupVersionKind) : Prop :=
  Group s = "*" /\ Version s = "*" /\ Kind s = "*".

(** Field-wise rule, each field on its own. *)
Definition fieldwiseMatch (g s : GroupVersionKind) : Prop :=
  fieldAccepts (Group s) (Group g) /\
  fieldAccepts (Version s) (Version g) /\
  fieldAccepts (Kind s) (Kind g).

(** The rule of section 4.1: field-wise, with the all-wildcard spec matching
    nothing. *)
Definition specMatches (g s : GroupVersionKind) : Prop :=
  ~ allWildcard s /\ fieldwiseMatch g s.

(** The rule of section 4.1 can be decided, field by field, with the
    equality of strings. *)
Definition fieldAccepts_dec (specField descField : string) :
  {fieldAccepts specField descField} + {~ fieldAccepts specField descField}.
Proof.
  unfold fieldAccepts.
  destruct (string_dec specField "*") as [Hw | Hw]; [left; now left|].
  destruct (string_dec specField descField) as [He | He];
    [left; now right | right; intros [H | H]; contradiction].
Defined.

Definition allWildcard_dec (s : GroupVersionKind) :
  {allWildcard s} + {~ allWildcard s}.
Proof.
  unfold allWildcard.
  destruct (string_dec (Group s) "*") as [HG | HG];
    [|right; intros [H _]; contradiction].
  destruct (string_dec (Version s) "*") as [HV | HV];
    [|right; intros [_ [H _]]; contradiction].
  destruct (string_dec (Kind s) "*") as [HK | HK];
    [left; repeat split; assumption | right; intros [_ [_ H]]; contradiction].
Defined.

Definition specMatches_dec (g s : GroupVersionKind) :
  {specMatches g s} + {~ specMatches g s}.
Proof.
  unfold specMatches, fieldwiseMatch.
  destruct (allWildcard_dec s) as [Ha | Ha];
    [right; intros [H _]; contradiction|].
  destruct (fieldAccepts_dec (Group s) (Group g)) as [HG | HG];
    [|right; intros [_ [H _]]; contradiction].
  destruct (fieldAccepts_dec (Version s) (Version g)) as [HV | HV];
    [|right; intros [_ [_ [H _]]]; contradiction].
  destruct (fieldAccepts_dec (Kind s) (Kind g)) as [HK | HK];
    [left; repeat split; assumption
    |right; intros [_ [_ [_ H]]]; contradiction].
Defined.

(** The number of specs of a registry that a descriptor matches under the
    rule of section 4.1, counted with the rule itself. *)
Definition specMatchCount (specs : list GroupVersionKind)
    (g : GroupVersionKind) : nat :=
  List.length (filter (fun s => if specMatches_dec g s then true else false)
                 specs).

End GVK.

(** ** The start-up sequence *)

Module Startup.

(** *** Values exchanged with the collaborators *)

(** A non-nil Go [error].  [metrics.ErrServiceMonitorNotPresent] is a
    package-level value compared with [==]; every other error is an
    [ErrOther] with its message. *)
Inductive error : Type :=
| ErrServiceMonitorNotPresent
| ErrOther (msg : string).

(** [err == metrics.ErrServiceMonitorNotPresent]. *)
Definition isErrServiceMonitorNotPresent (err : error) : bool :=
  match err with
  | ErrServiceMonitorNotPresent => true
  | ErrOther _ => false
  end.

(** [*rest.Config], opaque to this program. *)
Record RestConfig : Type := mkRestConfig { Host : string }.

(** [restmapper.NewDynamicRESTMapper], the only mapper provider used. *)
Inductive MapperProviderFunc : Type := NewDynamicRESTMapper.

(** [cache.NewCacheFunc] values built by this program. *)
Inductive NewCacheFunc : Type :=
| MultiNamespacedCacheBuilder (namespaces : list string).

(** The fields of [manager.Options] that [main] sets; a function-typed field
    left unset is [None]. *)
Record Options : Type := mkOptions {
  Namespace : string;
  MapperProvider : option MapperProviderFunc;
  MetricsBindAddress : string;
  NewCache : option NewCacheFunc
}.

(** The two port names of the metrics package. *)
Inductive PortName : Type := OperatorPortName | CRPortName.

Inductive Protocol : Type := ProtocolTCP.

(** [intstr.IntOrString] with [Type: intstr.Int]. *)
Inductive IntOrString : Type := IntVal (v : Z).

Record ServicePort : Type := mkServicePort {
  Port : Z;
  Name : PortName;
  PortProtocol : Protocol;
  TargetPort : IntOrString
}.

(** [*v1.Service] as returned by the metrics package. *)
Record Service : Type := mkService { ServiceName : string }.

(** *** Package-level variables *)

(** Kubeflow operator version. *)
Definition Version : string := "1.1.0".

Definition metricsHost : string := "0.0.0.0".
Definition metricsPort : Z := 8383.
Definition operatorMetricsPort : Z := 8686.

(** *** The strings package, for the separator [","]

    [strings.Contains(s, ",")] and [strings.Split(s, ",")] of the Go
    library, for a separator of one byte (the only use in [main]). *)

Definition comma : ascii := ","%char.

Fixpoint containsByte (c : ascii) (s : string) : bool :=
  match s with
  | EmptyString => false
  | String a rest => Ascii.eqb a c || containsByte c rest
  end.

Fixpoint splitByte (c : ascii) (s : string) : list string :=
  match s with
  | EmptyString => [EmptyString]
  | String a rest =>
      if Ascii.eqb a c then EmptyString :: splitByte c rest
      else match splitByte c rest with
           | [] => [String a EmptyString]
           | piece :: pieces => String a piece :: pieces
           end
  end.

Definition strings_Contains_comma (s : string) : bool := containsByte comma s.
Definition strings_Split_comma (s : string) : list string := splitByte comma s.

(** [fmt.Sprintf("%s:%d", host, port)]. *)
Definition sprintf_host_port (host : string) (port : Z) : string :=
  host ++ ":" ++ NilZero.string_of_int (Z.to_int port).

(** *** Observable behaviour: calls, log lines, exit *)

(** logrus levels used by the program. *)
Inductive Level : Type := ErrorLevel | WarnLevel | InfoLevel.

(** The numeric value of a logrus level: the smaller the more severe. *)
Definition levelValue (l : Level) : nat :=
  match l with
  | ErrorLevel => 2
  | WarnLevel => 3
  | InfoLevel => 4
  end.

(** [a] is a lower severity than [b]. *)
Definition lowerSeverity (a b : Level) : Prop := levelValue b < levelValue a.

(** An argument of a log format: an error (printed through its [Error]
    method, whether passed as [err] or as [err.Error()]) or a string. *)
Inductive LogArg : Type :=
| ArgError (e : error)
| ArgString (s : string).

(** The calls to collaborators, with the arguments the program chooses. *)
Inductive Call : Type :=
| ParseFlags
| GetWatchNamespace
| GetConfig
| Become (lockName : string)
| New (cfg : option RestConfig) (options : Options)
| AddToScheme
| AddToManager
| GetGVKsFromAddToScheme
| GetOperatorNamespace
| GenerateAndServeCRMetrics (cfg : option RestConfig) (ns : list string)
    (filteredGVK : list GVK.GroupVersionKind) (host : string) (port : Z)
| CreateMetricsService (cfg : option RestConfig) (servicePorts : list ServicePort)
| CreateServiceMonitors (cfg : option RestConfig) (ns : string)
    (services : list (option Service))
| Start.

(** One observable step: a call with the error it returned ([None] is
    [nil]), a log line, or the end of the process with a status ([os.Exit]
    in [main], or the exit inside [pflag.Parse]). *)
Inductive Event : Type :=
| Called (c : Call) (err : option error)
| Logged (lvl : Level) (format : string) (args : list LogArg)
| Exit (code : Z).

(** *** The collaborators

    What each external function returns.  A function called from one place
    has one field; [k8sutil.GetOperatorNamespace] is called from
    [serveCRMetrics] and from [main] and has a field per call site, so the two
    calls may answer differently.

    [pflag.Parse] returns nothing, but [pflag.CommandLine] handles errors
    with [ExitOnError]: on a command line it cannot parse, [Parse] ends the
    process itself instead of returning.  [pflag_Parse] is [Some code] when
    that happens, with the status the library exits with, and [None] when
    [Parse] returns. *)
Record World : Type := mkWorld {
  pflag_Parse : option Z;
  runtime_Version : string;
  runtime_GOOS : string;
  runtime_GOARCH : string;
  sdkVersion_Version : string;
  k8sutil_GetWatchNamespace : string * option error;
  config_GetConfig : option RestConfig * option error;
  leader_Become : string -> option error;
  manager_New : option RestConfig -> Options -> option error;
  apis_AddToScheme : option error;
  controller_AddToManager : option error;
  k8sutil_GetGVKsFromAddToScheme : list GVK.GroupVersionKind * option error;
  k8sutil_GetOperatorNamespace_serveCRMetrics : string * option error;
  kubemetrics_GenerateAndServeCRMetrics :
    option RestConfig -> list string -> list GVK.GroupVersionKind ->
    string -> Z -> option error;
  metrics_CreateMetricsService :
    option RestConfig -> list ServicePort -> option Service * option error;
  k8sutil_GetOperatorNamespace_main : string * option error;
  metrics_CreateServiceMonitors :
    option RestConfig -> string -> list (option Service) -> option error;
  mgr_Start : option error
}.

(** *** The monad: a trace of events, then a value or an exit *)

Inductive Outcome (A : Type) : Type :=
| Returned (a : A)
| Exited (code : Z).

Arguments Returned {A} a.
Arguments Exited {A} code.

Definition Proc (A : Type) : Type := (list Event * Outcome A)%type.

Definition ret {A : Type} (a : A) : Proc A := ([], Returned a).

Definition bind {A B : Type} (m : Proc A) (k : A -> Proc B) : Proc B :=
  match m with
  | (t, Returned a) => let (t', r) := k a in (t ++ t', r)
  | (t, Exited code) => (t, Exited code)
  end.

Definition emit (e : Event) : Proc unit := ([e], Returned tt).

Definition call (c : Call) (err : option error) : Proc unit :=
  emit (Called c err).

Definition logf (lvl : Level) (format : string) (args : list LogArg)
    : Proc unit :=
  emit (Logged lvl format args).

(** [os.Exit(code)]: nothing after it runs. *)
Definition os_Exit {A : Type} (code : Z) : Proc A := ([Exit code], Exited code).

(** [if err != nil { body }]. *)
Definition ifErr (err : option error) (body : error -> Proc unit) : Proc unit :=
  match err with
  | Some e => body e
  | None => ret tt
  end.

Declare Scope proc_scope.
Delimit Scope proc_scope with proc.
Notation "x <- m ;; k" := (bind m (fun x => k))
  (at level 61, m at next level, k at level 200, right associativity)
  : proc_scope.
Notation "m ;; k" := (bind m (fun _ => k))
  (at level 61, k at level 200, right associativity) : proc_scope.

Local Open Scope proc_scope.

(** *** The program *)

(** Lines 91 to 103 of [main]: the options literal, then the branch for a
    multi-namespace WATCH_NAMESPACE (e.g. ns1,ns2). *)
Definition setupOptions (watchNamespace : string) : Proc Options :=
  let options :=
    {| Namespace := watchNamespace;
       MapperProvider := Some NewDynamicRESTMapper;
       MetricsBindAddress := sprintf_host_port metricsHost metricsPort;
       NewCache := None |} in
  if strings_Contains_comma watchNamespace then
    logf InfoLevel "manager set up with multiple namespaces: %s"
      [ArgString watchNamespace] ;;
    ret {| Namespace := "";
           MapperProvider := MapperProvider options;
           MetricsBindAddress := MetricsBindAddress options;
           NewCache := Some (MultiNamespacedCacheBuilder
                               (strings_Split_comma watchNamespace)) |}
  else ret options.

(** The [servicePorts] literal of [main]. *)
Definition servicePorts : list ServicePort :=
  [ {| Port := metricsPort; Name := OperatorPortName;
       PortProtocol := ProtocolTCP; TargetPort := IntVal metricsPort |};
    {| Port := operatorMetricsPort; Name := CRPortName;
       PortProtocol := ProtocolTCP; TargetPort := IntVal operatorMetricsPort |} ].

Section Program.

(** [kfdefcontroller.WatchedResources], as in [GVK]. *)
Variable WatchedResources : list GVK.GroupVersionKind.

Variable w : World.

Definition printVersion : Proc unit :=
  logf InfoLevel "Go Version: %s" [ArgString (runtime_Version w)] ;;
  logf InfoLevel "Go OS/Arch: %s/%s"
    [ArgString (runtime_GOOS w); ArgString (runtime_GOARCH w)] ;;
  logf InfoLevel "Version of operator-sdk: %v"
    [ArgString (sdkVersion_Version w)] ;;
  logf InfoLevel "Kubeflow version: %v" [ArgString Version].

(** [serveCRMetrics]; its result is the returned [error]. *)
Definition serveCRMetrics (cfg : option RestConfig) : Proc (option error) :=
  let '(gvks, err) := k8sutil_GetGVKsFromAddToScheme w in
  call GetGVKsFromAddToScheme err ;;
  match err with
  | Some e => ret (Some e)
  | None =>
      let '(operatorNs, err) := k8sutil_GetOperatorNamespace_serveCRMetrics w in
      call GetOperatorNamespace err ;;
      match err with
      | Some e => ret (Some e)
      | None =>
          let filteredGVK :=
            GVK.filterGKVsFromAddToScheme WatchedResources gvks in
          (* [err] is tested once more; it still holds the last result *)
          match err with
          | Some e => ret (Some e)
          | None =>
              let ns := [operatorNs] in
              let err :=
                kubemetrics_GenerateAndServeCRMetrics w cfg ns filteredGVK
                  metricsHost operatorMetricsPort in
              call (GenerateAndServeCRMetrics cfg ns filteredGVK
                      metricsHost operatorMetricsPort) err ;;
              match err with
              | Some e => ret (Some e)
              | None => ret None
              end
          end
      end
  end.

(** The three [pflag] statements at the head of [main], ending with
    [pflag.Parse()]: either the process ends inside [Parse], or the call
    returns. *)
Definition parseFlags : Proc unit :=
  match pflag_Parse w with
  | Some code => os_Exit code
  | None => call ParseFlags None
  end.

(** [main]. *)
Definition main : Proc unit :=
  parseFlags ;;
  printVersion ;;
  let '(watchNamespace, err) := k8sutil_GetWatchNamespace w in
  call GetWatchNamespace err ;;
  ifErr err (fun e =>
    logf WarnLevel
      "Failed to get watch watchNamespace. The manager will watch and manage resources in all Namespaces. Error %v."
      [ArgError e]) ;;
  let '(cfg, err) := config_GetConfig w in
  call GetConfig err ;;
  ifErr err (fun e =>
    logf ErrorLevel "Error: %v." [ArgError e] ;; os_Exit 1) ;;
  let err := leader_Become w "kfctl-lock" in
  call (Become "kfctl-lock") err ;;
  ifErr err (fun e =>
    logf ErrorLevel "Error: %v." [ArgError e] ;; os_Exit 1) ;;
  options <- setupOptions watchNamespace ;;
  let err := manager_New w cfg options in
  call (New cfg options) err ;;
  ifErr err (fun e =>
    logf ErrorLevel "Error: %v." [ArgError e] ;; os_Exit 1) ;;
  logf InfoLevel "Registering Components." [] ;;
  let err := apis_AddToScheme w in
  call AddToScheme err ;;
  ifErr err (fun e =>
    logf ErrorLevel "Error: %v." [ArgError e] ;; os_Exit 1) ;;
  let err := controller_AddToManager w in
  call AddToManager err ;;
  ifErr err (fun e =>
    logf ErrorLevel "Error: %v." [ArgError e] ;; os_Exit 1) ;;
  err <- serveCRMetrics cfg ;;
  ifErr err (fun e =>
    logf ErrorLevel
      "Could not generate and serve custom resource metrics. Error: %v."
      [ArgError e]) ;;
  let '(service, err) := metrics_CreateMetricsService w cfg servicePorts in
  call (CreateMetricsService cfg servicePorts) err ;;
  ifErr err (fun e =>
    logf ErrorLevel "Could not create metrics Service. Error: %v."
      [ArgError e]) ;;
  let '(operatorNamespace, ignored) := k8sutil_GetOperatorNamespace_main w in
  call GetOperatorNamespace ignored ;;
  let services := [service] in
  let err := metrics_CreateServiceMonitors w cfg operatorNamespace services in
  call (CreateServiceMonitors cfg operatorNamespace services) err ;;
  ifErr err (fun e =>
    logf ErrorLevel "Could not create ServiceMonitor object. Error: %v."
      [ArgError e] ;;
    if isErrServiceMonitorNotPresent e then
      logf ErrorLevel
        "Install prometheus-operator in your cluster to create ServiceMonitor objects. Error: %v."
        [ArgError e]
    else ret tt) ;;
  logf InfoLevel "Starting the Cmd." [] ;;
  let err := mgr_Start w in
  call Start err ;;
  ifErr err (fun e =>
    logf ErrorLevel "Manager exited non-zero. Error: %v." [ArgError e] ;;
    os_Exit 1).

(** The two halves of [main], for reasoning on a run in two steps:
    [bootstrap] is the text of [main] up to the registration of the
    controllers and returns [cfg]; [publishAndRun] is the rest.  Lemma
    [main_split] shows that [main] is the first followed by the second. *)
Definition bootstrap : Proc (option RestConfig) :=
  parseFlags ;;
  printVersion ;;
  let '(watchNamespace, err) := k8sutil_GetWatchNamespace w in
  call GetWatchNamespace err ;;
  ifErr err (fun e =>
    logf WarnLevel
      "Failed to get watch watchNamespace. The manager will watch and manage resources in all Namespaces. Error %v."
      [ArgError e]) ;;
  let '(cfg, err) := config_GetConfig w in
  call GetConfig err ;;
  ifErr err (fun e =>
    logf ErrorLevel "Error: %v." [ArgError e] ;; os_Exit 1) ;;
  let err := leader_Become w "kfctl-lock" in
  call (Become "kfctl-lock") err ;;
  ifErr err (fun e =>
    logf ErrorLevel "Error: %v." [ArgError e] ;; os_Exit 1) ;;
  options <- setupOptions watchNamespace ;;
  let err := manager_New w cfg options in
  call (New cfg options) err ;;
  ifErr err (fun e =>
    logf ErrorLevel "Error: %v." [ArgError e] ;; os_Exit 1) ;;
  logf InfoLevel "Registering Components." [] ;;
  let err := apis_AddToScheme w in
  call AddToScheme err ;;
  ifErr err (fun e =>
    logf ErrorLevel "Error: %v." [ArgError e] ;; os_Exit 1) ;;
  let err := controller_AddToManager w in
  call AddToManager err ;;
  ifErr err (fun e =>
    logf ErrorLevel "Error: %v." [ArgError e] ;; os_Exit 1) ;;
  ret cfg.

Definition publishAndRun (cfg : option RestConfig) : Proc unit :=
  err <- serveCRMetrics cfg ;;
  ifErr err (fun e =>
    logf ErrorLevel
      "Could not generate and serve custom resource metrics. Error: %v."
      [ArgError e]) ;;
  let '(service, err) := metrics_CreateMetricsService w cfg servicePorts in
  call (CreateMetricsService cfg servicePorts) err ;;
  ifErr err (fun e =>
    logf ErrorLevel "Could not create metrics Service. Error: %v."
      [ArgError e]) ;;
  let '(operatorNamespace, ignored) := k8sutil_GetOperatorNamespace_main w in
  call GetOperatorNamespace ignored ;;
  let services := [service] in
  let err := metrics_CreateServiceMonitors w cfg operatorNamespace services in
  call (CreateServiceMonitors cfg operatorNamespace services) err ;;
  ifErr err (fun e =>
    logf ErrorLevel "Could not create ServiceMonitor object. Error: %v."
      [ArgError e] ;;
    if isErrServiceMonitorNotPresent e then
      logf ErrorLevel
        "Install prometheus-operator in your cluster to create ServiceMonitor objects. Error: %v."
        [ArgError e]
    else ret tt) ;;
  logf InfoLevel "Starting the Cmd." [] ;;
  let err := mgr_Start w in
  call Start err ;;
  ifErr err (fun e =>
    logf ErrorLevel "Manager exited non-zero. Error: %v." [ArgError e] ;;
    os_Exit 1).

(** The process: its trace and its exit status ([0] when [main] returns). *)
Definition run : list Event * Z :=
  match main with
  | (t, Returned _) => (t, 0%Z)
  | (t, Exited code) => (t, code)
  end.

Definition trace : list Event := fst run.
Definition exitCode : Z := snd run.

End Program.

(** *** Stages of the control flow

    The stages named by the specification, in their order; reading the API
    client configuration sits between namespace resolution and leadership in
    [main] and is a stage of its own here. *)
Inductive Stage : Type :=
| NamespaceResolver
| ClientConfig
| LeadershipCoordinator
| ManagerBootstrapper
| MetricsPublisher
| RunLoop.

Definition stageRank (s : Stage) : nat :=
  match s with
  | NamespaceResolver => 0
  | ClientConfig => 1
  | LeadershipCoordinator => 2
  | ManagerBootstrapper => 3
  | MetricsPublisher => 4
  | RunLoop => 5
  end.

(** The stage a call belongs to; flag parsing precedes all of them. *)
Definition stageOf (c : Call) : option Stage :=
  match c with
  | ParseFlags => None
  | GetWatchNamespace => Some NamespaceResolver
  | GetConfig => Some ClientConfig
  | Become _ => Some LeadershipCoordinator
  | New _ _ | AddToScheme | AddToManager => Some ManagerBootstrapper
  | GetGVKsFromAddToScheme | GetOperatorNamespace
  | GenerateAndServeCRMetrics _ _ _ _ _
  | CreateMetricsService _ _ | CreateServiceMonitors _ _ _ =>
      Some MetricsPublisher
  | Start => Some RunLoop
  end.

(** A call of stage [s] returned an error in the run. *)
Definition stageFails (t : list Event) (s : Stage) : Prop :=
  exists c e, In (Called c (Some e)) t /\ stageOf c = Some s.

(** No call of a stage after [s] appears in the run. *)
Definition noLaterStage (t : list Event) (s : Stage) : Prop :=
  forall c r s', In (Called c r) t -> stageOf c = Some s' ->
                 stageRank s' <= stageRank s.

(** A failure of stage [s] is fatal: whenever it fails the process exits
    non-zero and no later stage runs. *)
Definition fatalStage (W : list GVK.GroupVersionKind) (s : Stage) : Prop :=
  forall w, stageFails (trace W w) s ->
            exitCode W w <> 0%Z /\ noLaterStage (trace W w) s.

(** The events that the second half of [main] may produce: log lines,
    calls of the Metrics Publisher and of the Run Loop, and exits. *)
Definition tailEvent (ev : Event) : bool :=
  match ev with
  | Called c _ =>
      match stageOf c with
      | Some MetricsPublisher | Some RunLoop => true
      | _ => false
      end
  | _ => true
  end.

(** An event that is not a call of a stage after [s]. *)
Definition stageWithin (s : Stage) (ev : Event) : bool :=
  match ev with
  | Called c _ =>
      match stageOf c with
      | Some s' => Nat.leb (stageRank s') (stageRank s)
      | None => true
      end
  | _ => true
  end.

(** [Exited] and [Returned] as an exit status. *)
Definition statusOf {A : Type} (o : Outcome A) : Z :=
  match o with
  | Returned _ => 0%Z
  | Exited code => code
  end.

Definition isBecome (ev : Event) : bool :=
  match ev with
  | Called (Become _) _ => true
  | _ => false
  end.

Definition isNew (ev : Event) : bool :=
  match ev with
  | Called (New _ _) _ => true
  | _ => false
  end.

Definition isGenerateAndServeCRMetrics (ev : Event) : bool :=
  match ev with
  | Called (GenerateAndServeCRMetrics _ _ _ _ _) _ => true
  | _ => false
  end.

(** [mid] occurs in [t] as a block of consecutive events. *)
Definition occursIn (mid t : list Event) : Prop :=
  exists pre post, t = pre ++ mid ++ post.

(** [t] ends with the events [suffix]. *)
Definition endsWith (suffix t : list Event) : Prop :=
  exists pre, t = pre ++ suffix.

(** The two log formats of the ServiceMonitor step. *)
Definition serviceMonitorFailureFormat : string :=
  "Could not create ServiceMonitor object. Error: %v.".
Definition serviceMonitorGuidanceFormat : string :=
  "Install prometheus-operator in your cluster to create ServiceMonitor objects. Error: %v.".

(** The guidance line is logged at a lower severity than the line logged for
    every failure of the ServiceMonitor step. *)
Definition guidanceAtLowerSeverity (t : list Event) : Prop :=
  exists lvl args lvl' args',
    In (Logged lvl serviceMonitorGuidanceFormat args) t /\
    In (Logged lvl' serviceMonitorFailureFormat args') t /\
    lowerSeverity lvl lvl'.

(** The same world with another answer of [metrics.CreateServiceMonitors]. *)
Definition withCreateServiceMonitors (w : World)
    (f : option RestConfig -> string -> list (option Service) -> option error)
    : World :=
  {| pflag_Parse := pflag_Parse w;
     runtime_Version := runtime_Version w;
     runtime_GOOS := runtime_GOOS w;
     runtime_GOARCH := runtime_GOARCH w;
     sdkVersion_Version := sdkVersion_Version w;
     k8sutil_GetWatchNamespace := k8sutil_GetWatchNamespace w;
     config_GetConfig := config_GetConfig w;
     leader_Become := leader_Become w;
     manager_New := manager_New w;
     apis_AddToScheme := apis_AddToScheme w;
     controller_AddToManager := controller_AddToManager w;
     k8sutil_GetGVKsFromAddToScheme := k8sutil_GetGVKsFromAddToScheme w;
     k8sutil_GetOperatorNamespace_serveCRMetrics :=
       k8sutil_GetOperatorNamespace_serveCRMetrics w;
     kubemetrics_GenerateAndServeCRMetrics :=
       kubemetrics_GenerateAndServeCRMetrics w;
     metrics_CreateMetricsService := metrics_CreateMetricsService w;
     k8sutil_GetOperatorNamespace_main := k8sutil_GetOperatorNamespace_main w;
     metrics_CreateServiceMonitors := f;
     mgr_Start := mgr_Start w |}.

(** *** Observations on a trace *)

(** The calls of a trace, in order, with what they returned. *)
Definition callsOf (t : list Event) : list (Call * option error) :=
  flat_map (fun ev => match ev with
                      | Called c r => [(c, r)]
                      | _ => []
                      end) t.


(** The ranks of the stages of the calls of a trace, in order. *)
Definition stageRanks (t : list Event) : list nat :=
  flat_map (fun ev => match ev with
                      | Called c _ =>
                          match stageOf c with
                          | Some s => [stageRank s]
                          | None => []
                          end
                      | _ => []
                      end) t.

End Startup.

(** ** Concrete scenarios *)

Module Scenario.
Import GVK Startup.

(** The registry and the descriptors of the scenario of the specification. *)
Definition watched : list GroupVersionKind :=
  [mkGVK "a" "*" "Foo"; mkGVK "*" "*" "Baz"].

Definition registered : list GroupVersionKind :=
  [mkGVK "a" "v1" "Foo"; mkGVK "b" "v1" "Bar"; mkGVK "a" "v1" "Baz"].

(** A cluster where every collaborator succeeds. *)
Definition healthy : World :=
  {| pflag_Parse := None;
     runtime_Version := "go1.13";
     runtime_GOOS := "linux";
     runtime_GOARCH := "amd64";
     sdkVersion_Version := "v0.17.0";
     k8sutil_GetWatchNamespace := ("team-a,team-b", None);
     config_GetConfig := (Some (mkRestConfig "https://10.0.0.1:443"), None);
     leader_Become := fun _ => None;
     manager_New := fun _ _ => None;
     apis_AddToScheme := None;
     controller_AddToManager := None;
     k8sutil_GetGVKsFromAddToScheme := (registered, None);
     k8sutil_GetOperatorNamespace_serveCRMetrics := ("kubeflow", None);
     kubemetrics_GenerateAndServeCRMetrics := fun _ _ _ _ _ => None;
     metrics_CreateMetricsService :=
       fun _ _ => (Some (mkService "kfctl-metrics"), None);
     k8sutil_GetOperatorNamespace_main := ("kubeflow", None);
     metrics_CreateServiceMonitors := fun _ _ _ => None;
     mgr_Start := None |}.

(** Leadership acquisition fails. *)
Definition leaderLost : World :=
  {| pflag_Parse := pflag_Parse healthy;
     runtime_Version := runtime_Version healthy;
     runtime_GOOS := runtime_GOOS healthy;
     runtime_GOARCH := runtime_GOARCH healthy;
     sdkVersion_Version := sdkVersion_Version healthy;
     k8sutil_GetWatchNamespace := k8sutil_GetWatchNamespace healthy;
     config_GetConfig := config_GetConfig healthy;
     leader_Become := fun _ => Some (ErrOther "lock is held");
     manager_New := manager_New healthy;
     apis_AddToScheme := apis_AddToScheme healthy;
     controller_AddToManager := controller_AddToManager healthy;
     k8sutil_GetGVKsFromAddToScheme := k8sutil_GetGVKsFromAddToScheme healthy;
     k8sutil_GetOperatorNamespace_serveCRMetrics :=
       k8sutil_GetOperatorNamespace_serveCRMetrics healthy;
     kubemetrics_GenerateAndServeCRMetrics :=
       kubemetrics_GenerateAndServeCRMetrics healthy;
     metrics_CreateMetricsService := metrics_CreateMetricsService healthy;
     k8sutil_GetOperatorNamespace_main :=
       k8sutil_GetOperatorNamespace_main healthy;
     metrics_CreateServiceMonitors := metrics_CreateServiceMonitors healthy;
     mgr_Start := mgr_Start healthy |}.

(** The operator namespace cannot be determined inside [serveCRMetrics]. *)
Definition noOperatorNamespace : World :=
  {| pflag_Parse := pflag_Parse healthy;
     runtime_Version := runtime_Version healthy;
     runtime_GOOS := runtime_GOOS healthy;
     runtime_GOARCH := runtime_GOARCH healthy;
     sdkVersion_Version := sdkVersion_Version healthy;
     k8sutil_GetWatchNamespace := k8sutil_GetWatchNamespace healthy;
     config_GetConfig := config_GetConfig healthy;
     leader_Become := leader_Become healthy;
     manager_New := manager_New healthy;
     apis_AddToScheme := apis_AddToScheme healthy;
     controller_AddToManager := controller_AddToManager healthy;
     k8sutil_GetGVKsFromAddToScheme := k8sutil_GetGVKsFromAddToScheme healthy;
     k8sutil_GetOperatorNamespace_serveCRMetrics :=
       ("", Some (ErrOther "namespace not found for current environment"));
     kubemetrics_GenerateAndServeCRMetrics :=
       kubemetrics_GenerateAndServeCRMetrics healthy;
     metrics_CreateMetricsService := metrics_CreateMetricsService healthy;
     k8sutil_GetOperatorNamespace_main :=
       k8sutil_GetOperatorNamespace_main healthy;
     metrics_CreateServiceMonitors := metrics_CreateServiceMonitors healthy;
     mgr_Start := mgr_Start healthy |}.

(** The prometheus-operator is not installed. *)
Definition noPrometheus : World :=
  withCreateServiceMonitors healthy (fun _ _ _ => Some ErrServiceMonitorNotPresent).

(** The watch namespace cannot be read. *)
Definition noWatchNamespace : World :=
  {| pflag_Parse := pflag_Parse healthy;
     runtime_Version := runtime_Version healthy;
     runtime_GOOS := runtime_GOOS healthy;
     runtime_GOARCH := runtime_GOARCH healthy;
     sdkVersion_Version := sdkVersion_Version healthy;
     k8sutil_GetWatchNamespace := ("", Some (ErrOther "WATCH_NAMESPACE must be set"));
     config_GetConfig := config_GetConfig healthy;
     leader_Become := leader_Become healthy;
     manager_New := manager_New healthy;
     apis_AddToScheme := apis_AddToScheme healthy;
     controller_AddToManager := controller_AddToManager healthy;
     k8sutil_GetGVKsFromAddToScheme := k8sutil_GetGVKsFromAddToScheme healthy;
     k8sutil_GetOperatorNamespace_serveCRMetrics :=
       k8sutil_GetOperatorNamespace_serveCRMetrics healthy;
     kubemetrics_GenerateAndServeCRMetrics :=
       kubemetrics_GenerateAndServeCRMetrics healthy;
     metrics_CreateMetricsService := metrics_CreateMetricsService healthy;
     k8sutil_GetOperatorNamespace_main :=
       k8sutil_GetOperatorNamespace_main healthy;
     metrics_CreateServiceMonitors := metrics_CreateServiceMonitors healthy;
     mgr_Start := mgr_Start healthy |}.

(** The metrics Service cannot be created and, in [main], the operator
    namespace cannot be determined. *)
Definition noMetricsService : World :=
  {| pflag_Parse := pflag_Parse healthy;
     runtime_Version := runtime_Version healthy;
     runtime_GOOS := runtime_GOOS healthy;
     runtime_GOARCH := runtime_GOARCH healthy;
     sdkVersion_Version := sdkVersion_Version healthy;
     k8sutil_GetWatchNamespace := k8sutil_GetWatchNamespace healthy;
     config_GetConfig := config_GetConfig healthy;
     leader_Become := leader_Become healthy;
     manager_New := manager_New healthy;
     apis_AddToScheme := apis_AddToScheme healthy;
     controller_AddToManager := controller_AddToManager healthy;
     k8sutil_GetGVKsFromAddToScheme := k8sutil_GetGVKsFromAddToScheme healthy;
     k8sutil_GetOperatorNamespace_serveCRMetrics :=
       k8sutil_GetOperatorNamespace_serveCRMetrics healthy;
     kubemetrics_GenerateAndServeCRMetrics :=
       kubemetrics_GenerateAndServeCRMetrics healthy;
     metrics_CreateMetricsService :=
       fun _ _ => (None, Some (ErrOther "failed to create the metrics service"));
     k8sutil_GetOperatorNamespace_main :=
       ("", Some (ErrOther "namespace not found for current environment"));
     metrics_CreateServiceMonitors := metrics_CreateServiceMonitors healthy;
     mgr_Start := mgr_Start healthy |}.

End Scenario.

(** * Properties of the filter *)

Import GVK.

(** ** The loops as a flat map *)

Lemma innerLoop_app (W : list GroupVersionKind) (gvk : GroupVersionKind) :
  forall own,
    fold_left (innerStep gvk) W own
    = own ++ repeat gvk (List.length (filter (fun w => matchOf w gvk) W)).
Proof.
  induction W as [|w W IH]; intros own; simpl.
  - now rewrite app_nil_r.
  - unfold innerStep at 2. destruct (matchOf w gvk); simpl.
    + rewrite IH, <- app_assoc. reflexivity.
    + apply IH.
Qed.

Lemma outerLoop_app (W gvks : list GroupVersionKind) :
  forall own,
    fold_left (outerStep W) gvks own
    = own ++ flat_map (fun g => repeat g (matchCount W g)) gvks.
Proof.
  induction gvks as [|g gvks IH]; intros own; simpl.
  - now rewrite app_nil_r.
  - rewrite IH. unfold outerStep at 1. rewrite innerLoop_app.
    rewrite <- app_assoc. reflexivity.
Qed.

Lemma filter_flat_map (W gvks : list GroupVersionKind) :
  filterGKVsFromAddToScheme W gvks
  = flat_map (fun g => repeat g (matchCount W g)) gvks.
Proof.
  unfold filterGKVsFromAddToScheme. now rewrite outerLoop_app.
Qed.

Lemma strNeq_false (a b : string) : strNeq a b = false <-> a = b.
Proof.
  unfold strNeq. rewrite negb_false_iff. apply String.eqb_eq.
Qed.

Lemma guard_false (a b : string) :
  strNeq a "*" && strNeq a b = false <-> fieldAccepts a b.
Proof.
  unfold fieldAccepts. rewrite andb_false_iff, !strNeq_false. tauto.
Qed.

Lemma allWildcard_test (s : GroupVersionKind) :
  String.eqb (Kind s) matchAnyValue && String.eqb (Group s) matchAnyValue
    && String.eqb (Version s) matchAnyValue = true
  <-> allWildcard s.
Proof.
  unfold allWildcard, matchAnyValue.
  rewrite !andb_true_iff, !String.eqb_eq. tauto.
Qed.

(** The code's [match] flag, when the all-wildcard branch is not taken. *)
Lemma matchOf_fieldwise (s g : GroupVersionKind) :
  ~ allWildcard s ->
  (matchOf s g = true <-> fieldwiseMatch g s).
Proof.
  intros Hnw. unfold matchOf, fieldwiseMatch.
  destruct (String.eqb (Kind s) matchAnyValue && String.eqb (Group s) matchAnyValue
            && String.eqb (Version s) matchAnyValue) eqn:Hall.
  - apply allWildcard_test in Hall. contradiction.
  - rewrite <- !guard_false. unfold matchAnyValue.
    destruct (strNeq (Kind s) "*" && strNeq (Kind s) (Kind g));
    destruct (strNeq (Group s) "*" && strNeq (Group s) (Group g));
    destruct (strNeq (Version s) "*" && strNeq (Version s) (Version g));
    simpl; intuition congruence.
Qed.

Lemma matchOf_allWildcard (s g : GroupVersionKind) :
  allWildcard s -> matchOf s g = false.
Proof.
  intros H. apply allWildcard_test in H. unfold matchOf. now rewrite H.
Qed.

Lemma matchOf_specMatches (s g : GroupVersionKind) :
  matchOf s g = true <-> specMatches g s.
Proof.
  unfold specMatches. split.
  - intros H. assert (Hnw : ~ allWildcard s).
    { intros Ha. rewrite (matchOf_allWildcard s g Ha) in H. discriminate. }
    split; [exact Hnw|]. now apply matchOf_fieldwise.
  - intros [Hnw Hf]. now apply matchOf_fieldwise.
Qed.

Lemma matchCount_pos (W : list GroupVersionKind) (g : GroupVersionKind) :
  0 < matchCount W g <-> exists s, In s W /\ matchOf s g = true.
Proof.
  unfold matchCount. split.
  - intros H.
    destruct (filter (fun w => matchOf w g) W) as [|s l] eqn:E;
      [simpl in H; lia|].
    assert (Hin : In s (filter (fun w => matchOf w g) W))
      by (rewrite E; now left).
    apply filter_In in Hin. now exists s.
  - intros [s [Hin Hm]].
    assert (Hf : In s (filter (fun w => matchOf w g) W))
      by (apply filter_In; now split).
    destruct (filter (fun w => matchOf w g) W); [contradiction|simpl; lia].
Qed.


Lemma in_repeat_iff {A : Type} (x y : A) (n : nat) :
  In y (repeat x n) <-> y = x /\ 0 < n.
Proof.
  induction n as [|n IH]; simpl.
  - split; [contradiction | intros [_ H]; lia].
  - rewrite IH. split.
    + intros [H | [H _]]; subst; split; auto; lia.
    + intros [H _]. now left.
Qed.

Lemma matchCount_app (W1 W2 : list GroupVersionKind) (g : GroupVersionKind) :
  matchCount (W1 ++ W2) g = matchCount W1 g + matchCount W2 g.
Proof.
  unfold matchCount. now rewrite filter_app, length_app.
Qed.

Lemma count_occ_repeat (x g : GroupVersionKind) (n : nat) :
  count_occ GroupVersionKind_eq_dec (repeat x n) g
  = if GroupVersionKind_eq_dec x g then n else 0.
Proof.
  induction n as [|n IH]; simpl.
  - now destruct (GroupVersionKind_eq_dec x g).
  - rewrite IH. destruct (GroupVersionKind_eq_dec x g); reflexivity.
Qed.

(** ** The claims on [filterGKVsFromAddToScheme] *)

(** C1. Every element of the output of [filterGKVsFromAddToScheme] is an
    element of the input list, and a descriptor of the input appears in the
    output exactly when it matches at least one spec of the registry under the
    rule of section 4.1 ([specMatches]). *)
Theorem filter_subset_iff_matches
    (W D : list GroupVersionKind) (g : GroupVersionKind) :
  In g (filterGKVsFromAddToScheme W D)
  <-> In g D /\ exists s, In s W /\ specMatches g s.
Proof.
  rewrite filter_flat_map, in_flat_map. split.
  - intros [x [HxD Hrep]]. apply in_repeat_iff in Hrep as [-> Hpos].
    split; [assumption|].
    apply matchCount_pos in Hpos as [s [HsW Hm]].
    exists s. split; [assumption|]. now apply matchOf_specMatches.
  - intros [HgD [s [HsW Hm]]]. exists g. split; [assumption|].
    apply in_repeat_iff. split; [reflexivity|].
    apply matchCount_pos. exists s. split; [assumption|].
    now apply matchOf_specMatches.
Qed.

(** C2. For a spec that is not all-wildcard, the pair (descriptor, spec)
    matches exactly when each of Group, Version and Kind of the spec is the
    wildcard or equals the field of the descriptor; the spec
    {Group:"*", Version:"*", Kind:"Foo"} matches exactly the descriptors
    whose Kind is "Foo". *)
Theorem match_fieldwise_unless_all_wildcard (g s : GroupVersionKind) :
  ~ allWildcard s ->
  (matchOf s g = true <-> fieldwiseMatch g s) /\
  (matchOf (mkGVK "*" "*" "Foo") g = true <-> Kind g = "Foo").
Proof.
  intros Hnw. split.
  - now apply matchOf_fieldwise.
  - rewrite matchOf_fieldwise.
    + unfold fieldwiseMatch, fieldAccepts; simpl. split.
      * intros [_ [_ [H | H]]]; [discriminate | now symmetry].
      * intros H. repeat split; auto.
    + unfold allWildcard; simpl. intros [_ [_ H]]. discriminate.
Qed.

Lemma match_fieldwise_unless_all_wildcard_witness :
  ~ allWildcard (mkGVK "a" "*" "Foo") /\
  ((matchOf (mkGVK "a" "*" "Foo") (mkGVK "a" "v1" "Foo") = true
    <-> fieldwiseMatch (mkGVK "a" "v1" "Foo") (mkGVK "a" "*" "Foo")) /\
   (matchOf (mkGVK "*" "*" "Foo") (mkGVK "a" "v1" "Foo") = true
    <-> Kind (mkGVK "a" "v1" "Foo") = "Foo")).
Proof.
  assert (H : ~ allWildcard (mkGVK "a" "*" "Foo")).
  { unfold allWildcard; simpl. intros [H _]. discriminate. }
  split; [exact H|].
  apply (match_fieldwise_unless_all_wildcard
           (mkGVK "a" "v1" "Foo") (mkGVK "a" "*" "Foo") H).
Defined.

(** C3. A spec whose three fields are all the wildcard matches no
    descriptor, and it contributes nothing to the output of the filter: with
    or without it in the registry the output is the same, for any input. *)
Theorem all_wildcard_matches_nothing (s g : GroupVersionKind) :
  allWildcard s ->
  matchOf s g = false /\
  ~ specMatches g s /\
  forall W1 W2 D,
    filterGKVsFromAddToScheme (W1 ++ s :: W2) D
    = filterGKVsFromAddToScheme (W1 ++ W2) D.
Proof.
  intros Hall. split; [now apply matchOf_allWildcard|]. split.
  - intros [Hnw _]. contradiction.
  - intros W1 W2 D. rewrite !filter_flat_map.
    apply flat_map_ext. intros x. f_equal.
    rewrite !matchCount_app. f_equal.
    unfold matchCount; simpl. now rewrite (matchOf_allWildcard s x Hall).
Qed.

Lemma all_wildcard_matches_nothing_witness :
  allWildcard (mkGVK "*" "*" "*") /\
  matchOf (mkGVK "*" "*" "*") (mkGVK "a" "v1" "Foo") = false /\
  ~ specMatches (mkGVK "a" "v1" "Foo") (mkGVK "*" "*" "*") /\
  forall W1 W2 D,
    filterGKVsFromAddToScheme (W1 ++ mkGVK "*" "*" "*" :: W2) D
    = filterGKVsFromAddToScheme (W1 ++ W2) D.
Proof.
  assert (H : allWildcard (mkGVK "*" "*" "*")).
  { unfold allWildcard; simpl. repeat split; reflexivity. }
  split; [exact H|].
  apply (all_wildcard_matches_nothing
           (mkGVK "*" "*" "*") (mkGVK "a" "v1" "Foo") H).
Defined.

(** The count of the loop is the count under the rule of section 4.1. *)
Lemma matchCount_specMatchCount (W : list GroupVersionKind)
    (g : GroupVersionKind) :
  matchCount W g = specMatchCount W g.
Proof.
  unfold matchCount, specMatchCount. f_equal. apply filter_ext.
  intros s. destruct (specMatches_dec g s) as [Hm | Hm].
  - now apply matchOf_specMatches.
  - destruct (matchOf s g) eqn:E; [|reflexivity].
    apply matchOf_specMatches in E. contradiction.
Qed.

(** C4. The filter keeps the order of its input and removes no duplicate:
    the output is the input list with each descriptor replaced, in place,
    by k copies of it, where k is the number of specs of the registry that
    the descriptor matches under the rule of section 4.1; so the number of
    occurrences of a descriptor in the output is its number of occurrences
    in the input times k. *)
Theorem filter_order_and_multiplicity (W D : list GroupVersionKind) :
  filterGKVsFromAddToScheme W D
  = flat_map (fun g => repeat g (specMatchCount W g)) D
  /\ forall g,
       count_occ GroupVersionKind_eq_dec (filterGKVsFromAddToScheme W D) g
       = count_occ GroupVersionKind_eq_dec D g * specMatchCount W g.
Proof.
  assert (Hflat : filterGKVsFromAddToScheme W D
                  = flat_map (fun g => repeat g (specMatchCount W g)) D).
  { rewrite filter_flat_map. apply flat_map_ext. intros g.
    now rewrite matchCount_specMatchCount. }
  split; [exact Hflat|].
  intros g. rewrite Hflat. clear Hflat.
  induction D as [|x D IH]; simpl; [reflexivity|].
  rewrite count_occ_app, IH, count_occ_repeat.
  destruct (GroupVersionKind_eq_dec x g) as [->|Hne]; simpl; lia.
Qed.

(** C9. The filter distributes over concatenation of its input. *)
Theorem filter_app_homomorphism (W D1 D2 : list GroupVersionKind) :
  filterGKVsFromAddToScheme W (D1 ++ D2)
  = filterGKVsFromAddToScheme W D1 ++ filterGKVsFromAddToScheme W D2.
Proof.
  unfold filterGKVsFromAddToScheme.
  rewrite fold_left_app, !outerLoop_app. reflexivity.
Qed.

(** The scenario of the specification: of three registered descriptors
    only Foo and Baz of group "a" are kept; a descriptor matched by two specs
    comes out twice. *)
Example filter_scenario :
  filterGKVsFromAddToScheme Scenario.watched Scenario.registered
  = [mkGVK "a" "v1" "Foo"; mkGVK "a" "v1" "Baz"]
  /\ filterGKVsFromAddToScheme
       [mkGVK "a" "*" "Foo"; mkGVK "*" "*" "Foo"; mkGVK "*" "*" "*"]
       [mkGVK "a" "v1" "Foo"; mkGVK "b" "v1" "Foo"]
     = [mkGVK "a" "v1" "Foo"; mkGVK "a" "v1" "Foo"; mkGVK "b" "v1" "Foo"].
Proof. split; reflexivity. Qed.

(** In the second registry above the descriptor {a,v1,Foo} matches two
    specs under the rule of section 4.1, {b,v1,Foo} one, and the
    all-wildcard spec counts for neither. *)
Example specMatchCount_scenario :
  specMatchCount
    [mkGVK "a" "*" "Foo"; mkGVK "*" "*" "Foo"; mkGVK "*" "*" "*"]
    (mkGVK "a" "v1" "Foo") = 2
  /\ specMatchCount
       [mkGVK "a" "*" "Foo"; mkGVK "*" "*" "Foo"; mkGVK "*" "*" "*"]
       (mkGVK "b" "v1" "Foo") = 1.
Proof. split; reflexivity. Qed.

(** ** Further properties of the filter *)

Lemma in_filter_iff (W D : list GroupVersionKind) (g : GroupVersionKind) :
  In g (filterGKVsFromAddToScheme W D)
  <-> In g D /\ exists s, In s W /\ matchOf s g = true.
Proof.
  rewrite filter_flat_map, in_flat_map. split.
  - intros [x [HxD Hrep]]. apply in_repeat_iff in Hrep as [-> Hpos].
    split; [assumption | now apply matchCount_pos].
  - intros [HgD Hex]. exists g. split; [assumption|].
    apply in_repeat_iff. split; [reflexivity | now apply matchCount_pos].
Qed.

Lemma matchCount_zero (W : list GroupVersionKind) (g : GroupVersionKind) :
  (forall s, In s W -> matchOf s g = false) -> matchCount W g = 0.
Proof.
  unfold matchCount. induction W as [|s W IH]; intros H; simpl; [reflexivity|].
  rewrite (H s (or_introl eq_refl)). apply IH.
  intros s' Hs'. apply H. now right.
Qed.

Lemma matchCount_le (W : list GroupVersionKind) (g : GroupVersionKind) :
  matchCount W g <= List.length W.
Proof. unfold matchCount. apply filter_length_le. Qed.

Lemma matchCount_perm (W W' : list GroupVersionKind) (g : GroupVersionKind) :
  Permutation W W' -> matchCount W g = matchCount W' g.
Proof.
  unfold matchCount. induction 1 as [| s l l' _ IH | s s' l | l l' l'' _ IH1 _ IH2];
    simpl.
  - reflexivity.
  - destruct (matchOf s g); simpl; now rewrite IH.
  - destruct (matchOf s g), (matchOf s' g); reflexivity.
  - now rewrite IH1.
Qed.

(** When no descriptor of the input matches more than one spec, the nested
    loop is a plain filter. *)
Lemma filter_as_list_filter (W D : list GroupVersionKind) :
  (forall g, In g D -> matchCount W g <= 1) ->
  filterGKVsFromAddToScheme W D
  = filter (fun g => Nat.ltb 0 (matchCount W g)) D.
Proof.
  rewrite filter_flat_map. induction D as [|x D IH]; intros H; [reflexivity|].
  simpl. rewrite IH by (intros g Hg; apply H; now right).
  pose proof (H x (or_introl eq_refl)) as Hx.
  destruct (matchCount W x) as [|[|n]]; simpl; [reflexivity | reflexivity | lia].
Qed.

(** X1. When the registry is empty, or holds only all-wildcard specs, the
    filter returns the empty list for every input. *)
Theorem filter_without_effective_spec (W D : list GroupVersionKind) :
  (forall s, In s W -> allWildcard s) ->
  filterGKVsFromAddToScheme W D = [].
Proof.
  intros Hall. rewrite filter_flat_map.
  induction D as [|g D IH]; simpl; [reflexivity|].
  rewrite IH, matchCount_zero; [reflexivity|].
  intros s Hs. apply matchOf_allWildcard. now apply Hall.
Qed.

(** X1 on a registry of two all-wildcard specs. *)
Lemma filter_without_effective_spec_witness :
  (forall s, In s [mkGVK "*" "*" "*"; mkGVK "*" "*" "*"] -> allWildcard s)
  /\ filterGKVsFromAddToScheme [mkGVK "*" "*" "*"; mkGVK "*" "*" "*"]
       Scenario.registered = [].
Proof.
  assert (H : forall s, In s [mkGVK "*" "*" "*"; mkGVK "*" "*" "*"] ->
                        allWildcard s).
  { intros s [<- | [<- | []]]; unfold allWildcard; simpl; repeat split. }
  split; [exact H|].
  apply (filter_without_effective_spec _ Scenario.registered H).
Defined.

(** X2. The length of the output is the sum, over the input, of the number
    of specs of the registry that each descriptor matches under the rule of
    section 4.1; it is at most the length of the input times the length of
    the registry. *)
Theorem filter_length_bound (W D : list GroupVersionKind) :
  List.length (filterGKVsFromAddToScheme W D)
  = list_sum (map (specMatchCount W) D)
  /\ List.length (filterGKVsFromAddToScheme W D)
     <= List.length D * List.length W.
Proof.
  rewrite filter_flat_map.
  assert (Hlen : List.length (flat_map (fun g => repeat g (matchCount W g)) D)
                 = list_sum (map (specMatchCount W) D)).
  { induction D as [|g D IH]; simpl; [reflexivity|].
    now rewrite length_app, repeat_length, IH, matchCount_specMatchCount. }
  split; [exact Hlen|]. rewrite Hlen. clear Hlen.
  induction D as [|g D IH]; simpl; [lia|].
  pose proof (matchCount_le W g) as Hle.
  rewrite matchCount_specMatchCount in Hle. lia.
Qed.

(** X3. The order of the specs in the registry does not matter: two
    registries that are permutations of each other give the same output.
    Permuting the input permutes the output. *)
Theorem filter_permutation (W W' D D' : list GroupVersionKind) :
  Permutation W W' -> Permutation D D' ->
  filterGKVsFromAddToScheme W D = filterGKVsFromAddToScheme W' D
  /\ Permutation (filterGKVsFromAddToScheme W D)
                 (filterGKVsFromAddToScheme W' D').
Proof.
  intros HW HD.
  assert (Heq : forall L, filterGKVsFromAddToScheme W L
                          = filterGKVsFromAddToScheme W' L).
  { intros L. rewrite !filter_flat_map. apply flat_map_ext. intros g.
    now rewrite (matchCount_perm W W' g HW). }
  split; [apply Heq|].
  rewrite Heq, !filter_flat_map. now apply Permutation_flat_map.
Qed.

(** X3 on the registry of the scenario, swapped. *)
Lemma filter_permutation_witness :
  Permutation Scenario.watched [mkGVK "*" "*" "Baz"; mkGVK "a" "*" "Foo"]
  /\ filterGKVsFromAddToScheme Scenario.watched Scenario.registered
     = filterGKVsFromAddToScheme [mkGVK "*" "*" "Baz"; mkGVK "a" "*" "Foo"]
         Scenario.registered.
Proof.
  assert (H : Permutation Scenario.watched
                [mkGVK "*" "*" "Baz"; mkGVK "a" "*" "Foo"])
    by apply perm_swap.
  split; [exact H|].
  exact (proj1 (filter_permutation _ _ Scenario.registered Scenario.registered
                  H (Permutation_refl _))).
Defined.

(** X4. A spec without any wildcard field matches exactly one descriptor:
    the one equal to it, field by field. *)
Theorem concrete_spec_matches_itself_only (s g : GroupVersionKind) :
  Group s <> "*" -> GVK.Version s <> "*" -> Kind s <> "*" ->
  (matchOf s g = true <-> g = s).
Proof.
  intros HG HV HK.
  rewrite matchOf_fieldwise by (intros [Ha _]; contradiction).
  unfold fieldwiseMatch, fieldAccepts. split.
  - intros [[?|EG] [[?|EV] [?|EK]]]; try contradiction.
    destruct s, g; simpl in *; congruence.
  - intros ->. repeat split; now right.
Qed.

(** X4 on a spec of the operator's own group. *)
Lemma concrete_spec_matches_itself_only_witness :
  Group (mkGVK "kfdef.apps.kubeflow.org" "v1" "KfDef") <> "*"
  /\ (matchOf (mkGVK "kfdef.apps.kubeflow.org" "v1" "KfDef")
              (mkGVK "kfdef.apps.kubeflow.org" "v1beta1" "KfDef") = true
      <-> mkGVK "kfdef.apps.kubeflow.org" "v1beta1" "KfDef"
          = mkGVK "kfdef.apps.kubeflow.org" "v1" "KfDef").
Proof.
  assert (HG : Group (mkGVK "kfdef.apps.kubeflow.org" "v1" "KfDef") <> "*")
    by (simpl; discriminate).
  split; [exact HG|].
  apply (concrete_spec_matches_itself_only
           (mkGVK "kfdef.apps.kubeflow.org" "v1" "KfDef")
           (mkGVK "kfdef.apps.kubeflow.org" "v1beta1" "KfDef") HG);
    simpl; discriminate.
Defined.

(** X5. When no descriptor of the input matches more than one spec, the
    output has no duplicate if the input has none, and filtering the output
    again changes nothing. *)
Theorem filter_at_most_one_match (W D : list GroupVersionKind) :
  (forall g, In g D -> matchCount W g <= 1) ->
  (NoDup D -> NoDup (filterGKVsFromAddToScheme W D))
  /\ filterGKVsFromAddToScheme W (filterGKVsFromAddToScheme W D)
     = filterGKVsFromAddToScheme W D.
Proof.
  intros H. rewrite (filter_as_list_filter W D H). split.
  - apply NoDup_filter.
  - rewrite filter_as_list_filter.
    + induction D as [|x D IH]; simpl; [reflexivity|].
      assert (HD : forall g, In g D -> matchCount W g <= 1)
        by (intros g Hg; apply H; now right).
      destruct (Nat.ltb 0 (matchCount W x)) eqn:E; simpl.
      * rewrite E. f_equal. now apply IH.
      * now apply IH.
    + intros g Hg. apply filter_In in Hg as [Hg _]. now apply H.
Qed.

(** X5 on the scenario of the specification. *)
Lemma filter_at_most_one_match_witness :
  (forall g, In g Scenario.registered -> matchCount Scenario.watched g <= 1)
  /\ filterGKVsFromAddToScheme Scenario.watched
       (filterGKVsFromAddToScheme Scenario.watched Scenario.registered)
     = filterGKVsFromAddToScheme Scenario.watched Scenario.registered.
Proof.
  assert (H : forall g, In g Scenario.registered ->
                        matchCount Scenario.watched g <= 1).
  { intros g [<- | [<- | [<- | []]]]; vm_compute; lia. }
  split; [exact H|].
  exact (proj2 (filter_at_most_one_match _ _ H)).
Defined.

(** X6. The filter is monotone: with more specs in the registry and more
    descriptors in the input, every descriptor that was kept is still
    kept. *)
Theorem filter_monotone (W W' D D' : list GroupVersionKind)
    (g : GroupVersionKind) :
  incl W W' -> incl D D' ->
  In g (filterGKVsFromAddToScheme W D) ->
  In g (filterGKVsFromAddToScheme W' D').
Proof.
  intros HW HD. rewrite !in_filter_iff.
  intros [HgD [s [HsW Hm]]]. split; [now apply HD|].
  exists s. split; [now apply HW | assumption].
Qed.

(** X6: a descriptor kept in the scenario is kept with one more spec and one
    more descriptor. *)
Lemma filter_monotone_witness :
  incl Scenario.watched (mkGVK "b" "v1" "Bar" :: Scenario.watched)
  /\ In (mkGVK "a" "v1" "Baz")
        (filterGKVsFromAddToScheme (mkGVK "b" "v1" "Bar" :: Scenario.watched)
           (mkGVK "c" "v2" "Qux" :: Scenario.registered)).
Proof.
  assert (HW : incl Scenario.watched (mkGVK "b" "v1" "Bar" :: Scenario.watched))
    by apply incl_tl, incl_refl.
  assert (HD : incl Scenario.registered
                 (mkGVK "c" "v2" "Qux" :: Scenario.registered))
    by apply incl_tl, incl_refl.
  split; [exact HW|].
  apply (filter_monotone _ _ _ _ _ HW HD).
  vm_compute. tauto.
Defined.

(** * Properties of the start-up sequence *)

Import Startup.
Local Open Scope Z_scope.

(** ** Splitting at commas *)

Lemma containsByte_In (c : ascii) (s : string) :
  containsByte c s = true <-> In c (list_ascii_of_string s).
Proof.
  induction s as [|a s IH]; simpl.
  - split; [discriminate | contradiction].
  - rewrite orb_true_iff, IH, Ascii.eqb_eq. reflexivity.
Qed.

Lemma splitByte_nonempty (c : ascii) (s : string) : splitByte c s <> [].
Proof.
  destruct s as [|a s]; simpl; [discriminate|].
  destruct (Ascii.eqb a c); [discriminate|].
  destruct (splitByte c s); discriminate.
Qed.

(** Joining the pieces with the separator gives the string back: the pieces
    are the substrings between the separators, in order. *)
Lemma concat_splitByte (c : ascii) (s : string) :
  String.concat (String c EmptyString) (splitByte c s) = s.
Proof.
  induction s as [|a s IH]; simpl; [reflexivity|].
  destruct (Ascii.eqb a c) eqn:E.
  - apply Ascii.eqb_eq in E. subst a.
    destruct (splitByte c s) as [|p ps] eqn:Es.
    + now apply splitByte_nonempty in Es.
    + simpl in *. now rewrite IH.
  - destruct (splitByte c s) as [|p ps] eqn:Es.
    + now apply splitByte_nonempty in Es.
    + simpl in *. destruct ps; simpl in *; now rewrite IH.
Qed.

Lemma splitByte_pieces (c : ascii) (s : string) :
  Forall (fun piece => ~ In c (list_ascii_of_string piece)) (splitByte c s).
Proof.
  induction s as [|a s IH]; simpl.
  - constructor; [simpl; tauto | constructor].
  - destruct (Ascii.eqb a c) eqn:E.
    + constructor; [simpl; tauto | exact IH].
    + apply Ascii.eqb_neq in E.
      destruct (splitByte c s) as [|p ps]; simpl.
      * constructor; [simpl; intuition congruence | constructor].
      * inversion IH; subst. constructor; [|assumption].
        simpl. intuition congruence.
Qed.

Lemma splitByte_length (c : ascii) (s : string) :
  List.length (splitByte c s)
  = S (count_occ ascii_dec (list_ascii_of_string s) c).
Proof.
  induction s as [|a s IH]; simpl; [reflexivity|].
  destruct (Ascii.eqb a c) eqn:E.
  - apply Ascii.eqb_eq in E. subst a.
    destruct (ascii_dec c c); [|congruence]. simpl. now rewrite IH.
  - apply Ascii.eqb_neq in E.
    destruct (ascii_dec a c); [congruence|].
    rewrite <- IH. destruct (splitByte c s); [|reflexivity].
    now destruct (splitByte_nonempty c s).
Qed.

Example split_examples :
  strings_Split_comma "team-a,team-b" = ["team-a"; "team-b"]%string
  /\ strings_Split_comma ",a,,b," = [""; "a"; ""; "b"; ""]%string
  /\ strings_Split_comma "" = [""]%string
  /\ strings_Contains_comma "ns1" = false.
Proof. repeat split; reflexivity. Qed.

(** ** Traces *)

Lemma endsWith_here (t : list Event) : endsWith t t.
Proof. now exists []. Qed.

Lemma endsWith_cons (suffix t : list Event) (ev : Event) :
  endsWith suffix t -> endsWith suffix (ev :: t).
Proof. intros [pre ->]. now exists (ev :: pre). Qed.

Lemma occursIn_here (mid post t : list Event) :
  t = mid ++ post -> occursIn mid t.
Proof. intros ->. now exists [], post. Qed.

Lemma occursIn_cons (mid t : list Event) (ev : Event) :
  occursIn mid t -> occursIn mid (ev :: t).
Proof. intros [pre [post ->]]. now exists (ev :: pre), post. Qed.

Lemma occursIn_app_r (mid pre t : list Event) :
  occursIn mid t -> occursIn mid (pre ++ t).
Proof.
  intros [p [q ->]]. exists (pre ++ p), q. now rewrite app_assoc.
Qed.

Lemma noneOf_forallb (p : Event -> bool) (t : list Event) :
  (forall ev, In ev t -> p ev = false)
  <-> forallb (fun ev => negb (p ev)) t = true.
Proof.
  rewrite forallb_forall. split; intros H ev Hin.
  - now rewrite (H ev Hin).
  - apply negb_true_iff. now apply H.
Qed.

(** ** Running the program *)

(** Reduction of the monad and of the text of [bootstrap]. *)
Ltac run_bootstrap :=
  lazy beta iota zeta delta
    [bootstrap parseFlags printVersion setupOptions strings_Contains_comma
     MapperProvider MetricsBindAddress
     bind ifErr call logf emit ret os_Exit app].

(** Reduction of the monad and of the whole program. *)
Ltac run_program :=
  lazy beta iota zeta delta
    [main bootstrap publishAndRun serveCRMetrics parseFlags printVersion
     setupOptions strings_Contains_comma isErrServiceMonitorNotPresent
     MapperProvider MetricsBindAddress
     bind ifErr call logf emit ret os_Exit app].

(** Case analysis on an answer of a collaborator, where the run still
    depends on it; [resume] continues the run. *)
Ltac split_on resume x :=
  try (match goal with
       | |- context [match x with _ => _ end] => destruct x eqn:?
       end; resume).

Ltac split_pair resume p :=
  try (match goal with
       | |- context [match p with _ => _ end] =>
           let x := fresh "x" in
           let err := fresh "err" in
           destruct p as [x err] eqn:?; resume; split_on resume err
       end).

(** The runs of [bootstrap] in world [w], in the order of its calls. *)
Ltac enumerate_bootstrap resume w :=
  resume;
  split_on resume (pflag_Parse w);
  split_pair resume (k8sutil_GetWatchNamespace w);
  split_pair resume (config_GetConfig w);
  split_on resume (leader_Become w "kfctl-lock");
  try (match goal with
       | |- context [if containsByte comma ?s then _ else _] =>
           destruct (containsByte comma s) eqn:?
       end; resume);
  try (match goal with
       | |- context [match manager_New w ?c ?o with _ => _ end] =>
           destruct (manager_New w c o) eqn:?
       end; resume);
  split_on resume (apis_AddToScheme w);
  split_on resume (controller_AddToManager w).

(** The runs of [publishAndRun] in world [w], in the order of its calls. *)
Ltac enumerate_tail w :=
  run_program;
  split_pair run_program (k8sutil_GetGVKsFromAddToScheme w);
  split_pair run_program (k8sutil_GetOperatorNamespace_serveCRMetrics w);
  try (match goal with
       | |- context [match kubemetrics_GenerateAndServeCRMetrics w ?c ?n ?g ?h ?p
                     with _ => _ end] =>
           destruct (kubemetrics_GenerateAndServeCRMetrics w c n g h p) eqn:?
       end; run_program);
  try (match goal with
       | |- context [match metrics_CreateMetricsService w ?c ?p
                     with _ => _ end] =>
           split_pair run_program (metrics_CreateMetricsService w c p)
       end);
  split_pair run_program (k8sutil_GetOperatorNamespace_main w);
  try (match goal with
       | |- context [match metrics_CreateServiceMonitors w ?c ?n ?s
                     with _ => _ end] =>
           let smErr := fresh "smErr" in
           destruct (metrics_CreateServiceMonitors w c n s) as [smErr|] eqn:?;
           run_program; split_on run_program smErr
       end);
  split_on run_program (mgr_Start w).

(** Find an event in a concrete trace. *)
Ltac locate H :=
  cbn [In] in H;
  repeat (destruct H as [H | H]; [try discriminate H | ]);
  try contradiction H.

Ltac ends_with :=
  repeat (first [apply endsWith_here | apply endsWith_cons]).

Ltac occurs_in :=
  repeat (first [ solve [eapply occursIn_here; cbn; reflexivity]
                | apply occursIn_cons ]).

(** [main] is [bootstrap] followed by [publishAndRun]. *)
Lemma main_split W w : main W w = bind (bootstrap w) (publishAndRun W w).
Proof.
  enumerate_bootstrap run_program w; try reflexivity.
  all: match goal with
       | |- _ = (let (_, _) := ?tail in _) => destruct tail as [? [?|?]]
       end; reflexivity.
Qed.

Lemma trace_split W w :
  trace W w
  = fst (bootstrap w)
    ++ match snd (bootstrap w) with
       | Returned cfg => fst (publishAndRun W w cfg)
       | Exited _ => []
       end.
Proof.
  unfold trace, run. rewrite main_split. unfold bind.
  destruct (bootstrap w) as [t [cfg|code]]; simpl.
  - destruct (publishAndRun W w cfg) as [t' [a|code]]; reflexivity.
  - now rewrite app_nil_r.
Qed.

Lemma exitCode_split W w :
  exitCode W w
  = match snd (bootstrap w) with
    | Returned cfg => statusOf (snd (publishAndRun W w cfg))
    | Exited code => code
    end.
Proof.
  unfold exitCode, run. rewrite main_split. unfold bind.
  destruct (bootstrap w) as [t [cfg|code]]; simpl.
  - destruct (publishAndRun W w cfg) as [t' [a|code]]; reflexivity.
  - reflexivity.
Qed.

(** ** The second half of [main] *)

Ltac tail_cases W w cfg :=
  let p := fresh "p" in
  let Hp := fresh "Hp" in
  remember (publishAndRun W w cfg) as p eqn:Hp; revert Hp;
  enumerate_tail w; intros ->; cbn [fst snd].

(** It only logs and calls the Metrics Publisher and the Run Loop. *)
Lemma tail_events W w cfg :
  forallb tailEvent (fst (publishAndRun W w cfg)) = true.
Proof.
  tail_cases W w cfg; reflexivity.
Qed.

(** It exits exactly when [mgr.Start] fails. *)
Lemma tail_outcome W w cfg :
  snd (publishAndRun W w cfg)
  = match mgr_Start w with
    | Some _ => Exited 1
    | None => Returned tt
    end.
Proof.
  tail_cases W w cfg; reflexivity.
Qed.

(** It calls [mgr.Start], once. *)
Lemma tail_start W w cfg r :
  In (Called Start r) (fst (publishAndRun W w cfg)) <-> r = mgr_Start w.
Proof.
  tail_cases W w cfg.
  all: split; [intros H; locate H; now injection H
              | intros ->; cbn [In]; tauto].
Qed.

Lemma noLaterStage_forallb (t : list Event) (s : Stage) :
  forallb (stageWithin s) t = true -> noLaterStage t s.
Proof.
  rewrite forallb_forall. intros H c r s' Hin Hst.
  specialize (H _ Hin). simpl in H. rewrite Hst in H.
  now apply Nat.leb_le.
Qed.

Lemma stageWithin_RunLoop (ev : Event) :
  stageWithin RunLoop ev = true.
Proof.
  destruct ev as [c r | |]; [|reflexivity..]. now destruct c.
Qed.

(** A failing call of the second half belongs to the Metrics Publisher, or
    it is [mgr.Start]. *)
Lemma tail_failure W w cfg c e s :
  In (Called c (Some e)) (fst (publishAndRun W w cfg)) ->
  stageOf c = Some s ->
  s = MetricsPublisher \/ (s = RunLoop /\ mgr_Start w = Some e).
Proof.
  intros H Hs.
  pose proof (proj1 (forallb_forall _ _) (tail_events W w cfg) _ H) as Hev.
  simpl in Hev. rewrite Hs in Hev.
  destruct s; try discriminate Hev; [now left|].
  right. split; [reflexivity|].
  destruct c; try discriminate Hs.
  symmetry. now apply (tail_start W w cfg).
Qed.

(** An event that [publishAndRun] cannot produce is not in its trace. *)
Ltac not_in_tail H :=
  exfalso;
  let HF := fresh "HF" in
  pose proof (proj1 (forallb_forall _ _) (tail_events _ _ _) _ H) as HF;
  cbn in HF; discriminate HF.

(** The failure of [metrics.CreateServiceMonitors] in the second half: the
    line logged for every failure, and the guidance line, at the error
    level, exactly for [ErrServiceMonitorNotPresent]. *)
Lemma tail_serviceMonitors W w cfg0 cfg ns svcs e :
  In (Called (CreateServiceMonitors cfg ns svcs) (Some e))
     (fst (publishAndRun W w cfg0)) ->
  In (Logged ErrorLevel serviceMonitorFailureFormat [ArgError e])
     (fst (publishAndRun W w cfg0))
  /\ (e = ErrServiceMonitorNotPresent ->
      In (Logged ErrorLevel serviceMonitorGuidanceFormat [ArgError e])
         (fst (publishAndRun W w cfg0)))
  /\ (forall lvl args,
        In (Logged lvl serviceMonitorGuidanceFormat args)
           (fst (publishAndRun W w cfg0)) ->
        lvl = ErrorLevel /\ args = [ArgError e]
        /\ e = ErrServiceMonitorNotPresent).
Proof.
  unfold serviceMonitorFailureFormat, serviceMonitorGuidanceFormat.
  tail_cases W w cfg0.
  all: intros H; locate H.
  all: injection H as <- <- <- <-.
  all: split; [cbn [In]; tauto|].
  all: split; [intros He; try discriminate He; cbn [In]; tauto|].
  all: intros lvl args Hl; locate Hl.
  all: injection Hl as <- <-; repeat split; reflexivity.
Qed.

(** The exit status does not depend on what [metrics.CreateServiceMonitors]
    answers. *)
Lemma exitCode_withCreateServiceMonitors W w f :
  exitCode W (withCreateServiceMonitors w f) = exitCode W w.
Proof.
  rewrite !exitCode_split.
  change (bootstrap (withCreateServiceMonitors w f)) with (bootstrap w).
  destruct (snd (bootstrap w)) as [cfg|code]; [|reflexivity].
  rewrite !tail_outcome. reflexivity.
Qed.

(** [serveCRMetrics] when the operator namespace cannot be determined. *)
Lemma serveCRMetrics_no_namespace W w cfg gvks ns e :
  k8sutil_GetGVKsFromAddToScheme w = (gvks, None) ->
  k8sutil_GetOperatorNamespace_serveCRMetrics w = (ns, Some e) ->
  serveCRMetrics W w cfg
  = ([Called GetGVKsFromAddToScheme None;
      Called GetOperatorNamespace (Some e)], Returned (Some e)).
Proof.
  intros Hg Hn. unfold serveCRMetrics. rewrite Hg, Hn. reflexivity.
Qed.

Lemma tail_no_namespace W w cfg gvks ns e :
  k8sutil_GetGVKsFromAddToScheme w = (gvks, None) ->
  k8sutil_GetOperatorNamespace_serveCRMetrics w = (ns, Some e) ->
  occursIn
    [Called GetGVKsFromAddToScheme None;
     Called GetOperatorNamespace (Some e);
     Logged ErrorLevel
       "Could not generate and serve custom resource metrics. Error: %v."
       [ArgError e];
     Called (CreateMetricsService cfg servicePorts)
       (snd (metrics_CreateMetricsService w cfg servicePorts))]
    (fst (publishAndRun W w cfg))
  /\ (exists ns' svcs r,
        In (Called (CreateServiceMonitors cfg ns' svcs) r)
           (fst (publishAndRun W w cfg)))
  /\ forallb (fun ev => negb (isGenerateAndServeCRMetrics ev))
       (fst (publishAndRun W w cfg)) = true.
Proof.
  intros Hg Hn. revert Hg Hn. tail_cases W w cfg.
  all: intros Hg Hn; try discriminate Hg; try discriminate Hn.
  all: injection Hn as <- <-.
  all: split; [occurs_in|].
  all: split; [|reflexivity].
  all: do 3 eexists; cbn [In]; eauto 20.
Qed.

(** The runs of [bootstrap] in world [w], for a goal on [trace] and
    [exitCode]. *)
Ltac bootstrap_cases W w :=
  rewrite ?trace_split, ?exitCode_split in *;
  pattern (bootstrap w);
  let Q := fresh "Q" in
  match goal with |- ?P _ => set (Q := P) end;
  enumerate_bootstrap run_bootstrap w;
  subst Q; cbn beta; cbn [fst snd]; rewrite ?app_nil_r.

(** The options that [manager.New] receives are those of [setupOptions] on
    the watch namespace. *)
Lemma main_passes_setupOptions W w cfg o r :
  In (Called (New cfg o) r) (trace W w) ->
  snd (setupOptions (fst (k8sutil_GetWatchNamespace w))) = Returned o.
Proof.
  bootstrap_cases W w.
  all: intros H; try rewrite in_app_iff in H.
  all: lazymatch type of H with
       | _ \/ _ => destruct H as [H | H]; [|not_in_tail H]
       | _ => idtac
       end.
  all: locate H.
  all: injection H as <- <- <-.
  all: unfold setupOptions, strings_Contains_comma;
       match goal with Hc : containsByte _ _ = _ |- _ => rewrite Hc end;
       reflexivity.
Qed.

(** ** The claims on [main] and [serveCRMetrics] *)

(** C5. For a watch-namespace string that contains a comma the options are
    built with an empty Namespace and with NewCache set to the
    multi-namespaced cache builder over the pieces of the string between
    its commas, in order (joined with commas they give the string back, none
    of them contains a comma, and there are at least two); for a string
    without a comma the Namespace option is that string and NewCache is left
    unset. *)
Theorem options_by_watch_namespace (s : string) :
  (In comma (list_ascii_of_string s) ->
     snd (setupOptions s)
     = Returned {| Namespace := "";
                   MapperProvider := Some NewDynamicRESTMapper;
                   MetricsBindAddress := "0.0.0.0:8383";
                   NewCache := Some (MultiNamespacedCacheBuilder
                                       (strings_Split_comma s)) |}
     /\ String.concat "," (strings_Split_comma s) = s
     /\ Forall (fun name => ~ In comma (list_ascii_of_string name))
               (strings_Split_comma s)
     /\ (2 <= List.length (strings_Split_comma s))%nat)
  /\
  (~ In comma (list_ascii_of_string s) ->
     setupOptions s
     = ([], Returned {| Namespace := s;
                        MapperProvider := Some NewDynamicRESTMapper;
                        MetricsBindAddress := "0.0.0.0:8383";
                        NewCache := None |})).
Proof.
  unfold setupOptions, strings_Contains_comma, strings_Split_comma. split.
  - intros Hin. pose proof Hin as Hc. apply containsByte_In in Hc.
    rewrite Hc. split; [reflexivity|]. split; [apply concat_splitByte|].
    split; [apply splitByte_pieces|].
    rewrite splitByte_length.
    apply (count_occ_In ascii_dec) in Hin. lia.
  - intros Hnin. destruct (containsByte comma s) eqn:Hc.
    + apply containsByte_In in Hc. contradiction.
    + reflexivity.
Qed.

(** The theorem on the scenario string of the specification. *)
Lemma options_by_watch_namespace_witness :
  In comma (list_ascii_of_string "team-a,team-b") /\
  snd (setupOptions "team-a,team-b")
  = Returned {| Namespace := "";
                MapperProvider := Some NewDynamicRESTMapper;
                MetricsBindAddress := "0.0.0.0:8383";
                NewCache := Some (MultiNamespacedCacheBuilder
                                    ["team-a"%string; "team-b"%string]) |}.
Proof.
  assert (H : In comma (list_ascii_of_string "team-a,team-b")).
  { simpl. unfold comma. tauto. }
  split; [exact H|].
  exact (proj1 (proj1 (options_by_watch_namespace "team-a,team-b") H)).
Defined.

(** C6. When [leader.Become] returns an error, the lock id is
    ["kfctl-lock"], the run ends with that call, one error log line and
    [os.Exit(1)], the exit status is 1, [manager.New] is never called and
    [leader.Become] is called once. *)
Theorem leader_failure_exits_before_manager W w lockName e :
  In (Called (Become lockName) (Some e)) (trace W w) ->
  lockName = "kfctl-lock"
  /\ endsWith [Called (Become "kfctl-lock") (Some e);
               Logged ErrorLevel "Error: %v." [ArgError e];
               Exit 1] (trace W w)
  /\ exitCode W w = 1
  /\ (forall ev, In ev (trace W w) -> isNew ev = false)
  /\ List.length (filter isBecome (trace W w)) = 1%nat.
Proof.
  intros H. rewrite noneOf_forallb. revert H. bootstrap_cases W w.
  all: intros H; try rewrite in_app_iff in H.
  all: try (destruct H as [H | H]; [|not_in_tail H]).
  all: locate H.
  all: injection H as <- <-.
  all: split; [reflexivity|].
  all: split; [ends_with|].
  all: repeat split; reflexivity.
Qed.

(** The theorem in the scenario where leadership is not acquired. *)
Lemma leader_failure_exits_before_manager_witness :
  In (Called (Become "kfctl-lock") (Some (ErrOther "lock is held")))
     (trace Scenario.watched Scenario.leaderLost)
  /\ exitCode Scenario.watched Scenario.leaderLost = 1
  /\ (forall ev, In ev (trace Scenario.watched Scenario.leaderLost) ->
                 isNew ev = false).
Proof.
  assert (H : In (Called (Become "kfctl-lock") (Some (ErrOther "lock is held")))
                 (trace Scenario.watched Scenario.leaderLost)).
  { vm_compute. tauto. }
  split; [exact H|].
  destruct (leader_failure_exits_before_manager _ _ _ _ H)
    as [_ [_ [Hexit [Hnew _]]]].
  split; assumption.
Defined.

(** C7 as stated fails for the Metrics Publisher: in the scenario where the
    operator namespace cannot be determined inside [serveCRMetrics], a call
    of that stage fails, and yet the process exits with status 0 and the
    Run Loop runs. *)
Lemma metrics_publisher_failure_is_not_fatal :
  ~ fatalStage Scenario.watched MetricsPublisher.
Proof.
  intros Hfatal.
  destruct (Hfatal Scenario.noOperatorNamespace) as [Hexit _].
  - exists GetOperatorNamespace,
      (ErrOther "namespace not found for current environment").
    split; [vm_compute; tauto | reflexivity].
  - apply Hexit. reflexivity.
Qed.

(** In the second half, the error of a failed call is logged at the error
    level, except for [GetOperatorNamespace]: its error in [main] is
    discarded. *)
Lemma tail_failure_logged W w cfg c e :
  In (Called c (Some e)) (fst (publishAndRun W w cfg)) ->
  c <> GetOperatorNamespace ->
  exists format,
    In (Logged ErrorLevel format [ArgError e]) (fst (publishAndRun W w cfg)).
Proof.
  tail_cases W w cfg.
  all: intros H Hne; locate H.
  all: injection H as Hcall Herr; subst c; try (now destruct Hne).
  all: subst e; eexists; cbn [In]; repeat (first [left; reflexivity | right]).
Qed.

(** C7, amended. A failure of a call of the API client configuration, of the
    Leadership Coordinator, of the Manager Bootstrapper or of the Run Loop is
    fatal: the process exits with status 1 and no call of a later stage is
    made. A failure of a call of the Metrics Publisher does not stop the
    sequence: [mgr.Start] is still called and the exit status is decided by
    its result alone; the error of every failed call of the Metrics
    Publisher other than [GetOperatorNamespace] is logged at the error
    level. *)
Theorem fatal_and_tolerated_failures W w s :
  stageFails (trace W w) s ->
  (s <> NamespaceResolver -> s <> MetricsPublisher ->
     exitCode W w = 1 /\ noLaterStage (trace W w) s)
  /\ (s = MetricsPublisher ->
     In (Called Start (mgr_Start w)) (trace W w)
     /\ exitCode W w = match mgr_Start w with Some _ => 1 | None => 0 end
     /\ (forall c e,
           In (Called c (Some e)) (trace W w) ->
           stageOf c = Some MetricsPublisher ->
           c <> GetOperatorNamespace ->
           exists format,
             In (Logged ErrorLevel format [ArgError e]) (trace W w))).
Proof.
  intros [c [e [H Hs]]]. revert H. bootstrap_cases W w.
  all: intros H; try rewrite in_app_iff in H.
  (* runs that go on to the second half *)
  all: lazymatch type of H with
       | _ \/ _ =>
           destruct H as [H | H];
           [ locate H;
             (injection H as <- <-; cbn in Hs; injection Hs as <-;
              split; [intros Hn; now destruct Hn | discriminate])
           | destruct (tail_failure _ _ _ _ _ _ H Hs) as [-> | [-> Hst]];
             [ split; [intros _ Hn; now destruct Hn|]; intros _;
               split; [apply in_or_app; right; now apply tail_start|];
               split; [rewrite tail_outcome; now destruct (mgr_Start w)|];
               intros mc me Hm Hmstage Hne;
               apply in_app_iff in Hm; destruct Hm as [Hm | Hm];
               [ locate Hm;
                 (injection Hm as <- <-; cbn in Hmstage; discriminate Hmstage)
               | destruct (tail_failure_logged _ _ _ _ _ Hm Hne)
                   as [format Hlog];
                 exists format; apply in_or_app; now right ]
             | split; [|discriminate]; intros _ _;
               split; [rewrite tail_outcome, Hst; reflexivity|];
               apply noLaterStage_forallb, forallb_forall;
               intros ev _; apply stageWithin_RunLoop ] ]
       | _ => idtac
       end.
  (* runs that exit in the first half *)
  all: locate H.
  all: injection H as <- <-; cbn in Hs; injection Hs as <-.
  all: split; [|discriminate].
  all: intros Hn _; try (now destruct Hn).
  all: split; [reflexivity|].
  all: apply noLaterStage_forallb; reflexivity.
Qed.

(** The theorem in the scenario where leadership is not acquired. *)
Lemma fatal_and_tolerated_failures_witness :
  stageFails (trace Scenario.watched Scenario.leaderLost) LeadershipCoordinator
  /\ exitCode Scenario.watched Scenario.leaderLost = 1
  /\ noLaterStage (trace Scenario.watched Scenario.leaderLost)
       LeadershipCoordinator.
Proof.
  assert (H : stageFails (trace Scenario.watched Scenario.leaderLost)
                LeadershipCoordinator).
  { exists (Become "kfctl-lock"), (ErrOther "lock is held").
    split; [vm_compute; tauto | reflexivity]. }
  split; [exact H|].
  apply (proj1 (fatal_and_tolerated_failures _ _ _ H)); discriminate.
Defined.

(** C8 as stated fails on the severity: where the prometheus-operator is
    absent, [metrics.CreateServiceMonitors] fails with
    [ErrServiceMonitorNotPresent] and the guidance line is logged, but not at
    a lower severity than the line logged for every failure of that step:
    both are at the error level. *)
Lemma guidance_is_not_at_lower_severity :
  In (Called (CreateServiceMonitors
                (Some (mkRestConfig "https://10.0.0.1:443")) "kubeflow"
                [Some (mkService "kfctl-metrics")])
             (Some ErrServiceMonitorNotPresent))
     (trace Scenario.watched Scenario.noPrometheus)
  /\ ~ guidanceAtLowerSeverity (trace Scenario.watched Scenario.noPrometheus).
Proof.
  split; [vm_compute; tauto|].
  intros [lvl [args [lvl' [args' [Hg [Hf Hlow]]]]]].
  unfold serviceMonitorGuidanceFormat in Hg.
  unfold serviceMonitorFailureFormat in Hf.
  vm_compute in Hg, Hf.
  locate Hg. locate Hf.
  injection Hg as <- _. injection Hf as <- _.
  unfold lowerSeverity in Hlow. simpl in Hlow. lia.
Qed.

(** C8, amended. When [metrics.CreateServiceMonitors] fails, the failure is
    logged at the error level; the guidance line on prometheus-operator is
    logged as well exactly when the error is
    [metrics.ErrServiceMonitorNotPresent], and it is logged at the same error
    level; in every case [mgr.Start] is called afterwards and the exit
    status is the one the process has when the ServiceMonitor step
    succeeds. *)
Theorem service_monitor_failure_is_tolerated W w cfg ns svcs e :
  In (Called (CreateServiceMonitors cfg ns svcs) (Some e)) (trace W w) ->
  In (Logged ErrorLevel serviceMonitorFailureFormat [ArgError e]) (trace W w)
  /\ (e = ErrServiceMonitorNotPresent ->
      In (Logged ErrorLevel serviceMonitorGuidanceFormat [ArgError e])
         (trace W w))
  /\ (forall lvl args,
        In (Logged lvl serviceMonitorGuidanceFormat args) (trace W w) ->
        lvl = ErrorLevel /\ args = [ArgError e]
        /\ e = ErrServiceMonitorNotPresent)
  /\ In (Called Start (mgr_Start w)) (trace W w)
  /\ exitCode W w = match mgr_Start w with Some _ => 1 | None => 0 end
  /\ exitCode W w
     = exitCode W (withCreateServiceMonitors w (fun _ _ _ => None)).
Proof.
  intros H.
  rewrite (exitCode_withCreateServiceMonitors W w (fun _ _ _ => None)).
  revert H. unfold serviceMonitorGuidanceFormat at 2.
  bootstrap_cases W w.
  all: intros H; try rewrite in_app_iff in H.
  all: lazymatch type of H with
       | _ \/ _ =>
           destruct H as [H | H]; [locate H|];
           destruct (tail_serviceMonitors _ _ _ _ _ _ _ H)
             as [Hfail [Hguide Honly]];
           split; [apply in_or_app; now right|];
           split; [intros He; apply in_or_app; right; now apply Hguide|];
           split; [intros lvl args Hl; apply in_app_iff in Hl;
                   destruct Hl as [Hl | Hl]; [locate Hl | now apply Honly]|];
           split; [apply in_or_app; right; now apply tail_start|];
           split; [rewrite tail_outcome; now destruct (mgr_Start w)
                  | reflexivity]
       | _ => locate H
       end.
Qed.

(** The theorem in the scenario without prometheus-operator. *)
Lemma service_monitor_failure_is_tolerated_witness :
  In (Called (CreateServiceMonitors
                (Some (mkRestConfig "https://10.0.0.1:443")) "kubeflow"
                [Some (mkService "kfctl-metrics")])
             (Some ErrServiceMonitorNotPresent))
     (trace Scenario.watched Scenario.noPrometheus)
  /\ In (Called Start (mgr_Start Scenario.noPrometheus))
        (trace Scenario.watched Scenario.noPrometheus)
  /\ exitCode Scenario.watched Scenario.noPrometheus = 0.
Proof.
  assert (H : In (Called (CreateServiceMonitors
                            (Some (mkRestConfig "https://10.0.0.1:443"))
                            "kubeflow" [Some (mkService "kfctl-metrics")])
                         (Some ErrServiceMonitorNotPresent))
                 (trace Scenario.watched Scenario.noPrometheus)).
  { vm_compute. tauto. }
  split; [exact H|].
  destruct (service_monitor_failure_is_tolerated _ _ _ _ _ _ H)
    as [_ [_ [_ [Hstart [Hexit _]]]]].
  split; [exact Hstart | exact Hexit].
Defined.

(** C10. When the operator namespace cannot be determined inside
    [serveCRMetrics] although the GVK list was obtained, the function returns
    that error right after the two calls, whatever the registry of watched
    resources is, and [GenerateAndServeCRMetrics] is not called; in [main],
    once the controllers are registered, the error is only logged and the
    metrics Service and the ServiceMonitors are still created. *)
Theorem operator_namespace_failure_skips_cr_metrics W w gvks ns e :
  k8sutil_GetGVKsFromAddToScheme w = (gvks, None) ->
  k8sutil_GetOperatorNamespace_serveCRMetrics w = (ns, Some e) ->
  (forall cfg,
     serveCRMetrics W w cfg
     = ([Called GetGVKsFromAddToScheme None;
         Called GetOperatorNamespace (Some e)], Returned (Some e)))
  /\ (In (Called AddToManager None) (trace W w) ->
      occursIn
        [Called GetGVKsFromAddToScheme None;
         Called GetOperatorNamespace (Some e);
         Logged ErrorLevel
           "Could not generate and serve custom resource metrics. Error: %v."
           [ArgError e];
         Called (CreateMetricsService (fst (config_GetConfig w)) servicePorts)
           (snd (metrics_CreateMetricsService w (fst (config_GetConfig w))
                   servicePorts))]
        (trace W w)
      /\ (exists ns' svcs r,
            In (Called (CreateServiceMonitors (fst (config_GetConfig w))
                          ns' svcs) r) (trace W w))
      /\ (forall ev, In ev (trace W w) ->
                     isGenerateAndServeCRMetrics ev = false)).
Proof.
  intros Hg Hn. split.
  - intros cfg. now apply (serveCRMetrics_no_namespace W w cfg gvks ns e).
  - pose proof (fun cfg => tail_no_namespace W w cfg gvks ns e Hg Hn) as HT.
    clear Hg Hn. rewrite noneOf_forallb. intros H. revert H.
    bootstrap_cases W w.
    all: intros H; try rewrite in_app_iff in H.
    all: lazymatch type of H with
         | _ \/ _ =>
             clear H;
             match goal with
             | |- context [publishAndRun _ _ ?c] =>
                 destruct (HT c) as [Hocc [[ns' [svcs [r Hsm]]] Hgen]]
             end;
             split; [now apply occursIn_app_r|];
             split; [exists ns', svcs, r; apply in_or_app; now right|];
             rewrite forallb_app, Hgen; reflexivity
         | _ => locate H
         end.
Qed.

(** The theorem in the scenario without operator namespace. *)
Lemma operator_namespace_failure_skips_cr_metrics_witness :
  k8sutil_GetGVKsFromAddToScheme Scenario.noOperatorNamespace
  = (Scenario.registered, None)
  /\ (forall ev, In ev (trace Scenario.watched Scenario.noOperatorNamespace) ->
                 isGenerateAndServeCRMetrics ev = false).
Proof.
  split; [reflexivity|].
  refine (proj2 (proj2 (proj2
    (operator_namespace_failure_skips_cr_metrics
       Scenario.watched Scenario.noOperatorNamespace Scenario.registered ""
       (ErrOther "namespace not found for current environment")
       eq_refl eq_refl) _))).
  vm_compute. tauto.
Defined.

(** * Further properties of the start-up sequence *)


Lemma occursIn_app_l (mid t post : list Event) :
  occursIn mid t -> occursIn mid (t ++ post).
Proof.
  intros [p [q ->]]. exists p, (q ++ post). now rewrite <- !app_assoc.
Qed.


Lemma callsOf_app (t t' : list Event) :
  callsOf (t ++ t') = callsOf t ++ callsOf t'.
Proof. unfold callsOf. apply flat_map_app. Qed.

Lemma in_callsOf (t : list Event) (c : Call) (r : option error) :
  In (c, r) (callsOf t) <-> In (Called c r) t.
Proof.
  unfold callsOf. rewrite in_flat_map. split.
  - intros [ev [Hev Hin]]. destruct ev as [c' r' | |]; simpl in Hin;
      try contradiction.
    destruct Hin as [Heq | []]. now injection Heq as <- <-.
  - intros H. exists (Called c r). split; [assumption | now left].
Qed.

Lemma stageRanks_app (t t' : list Event) :
  stageRanks (t ++ t') = stageRanks t ++ stageRanks t'.
Proof. unfold stageRanks. apply flat_map_app. Qed.

Lemma StronglySorted_le_app (l1 l2 : list nat) :
  StronglySorted le l1 -> StronglySorted le l2 ->
  (forall x y, In x l1 -> In y l2 -> (x <= y)%nat) ->
  StronglySorted le (l1 ++ l2).
Proof.
  induction l1 as [|a l1 IH]; intros H1 H2 Hle; simpl; [assumption|].
  inversion H1 as [|? ? Hs Hf]; subst. constructor.
  - apply IH; [assumption | assumption |].
    intros x y Hx Hy. apply Hle; [now right | assumption].
  - apply Forall_app. split; [assumption|].
    apply Forall_forall. intros y Hy. apply Hle; [now left | assumption].
Qed.

(** ** The second half of [main], continued *)




Lemma occursIn_in (ev : Event) (t : list Event) :
  occursIn [ev] t -> In ev t.
Proof.
  intros [pre [post ->]]. apply in_or_app. right. now left.
Qed.

(** ** More on whole runs *)

(** Split a membership in the trace of a run that goes on to the second
    half: [found] treats the events located in the first half, [later] the
    membership in the second half. *)
Ltac in_halves H found later :=
  apply in_app_iff in H; destruct H as [H | H]; [locate H; found | later].


(** X8. [mgr.Start] is only called after the configuration was read,
    leadership was acquired, the manager was built and the scheme and the
    controllers were registered, all without error and in that order: these
    are the first calls of the run, and [mgr.Start] comes later. *)
Theorem start_only_after_registration W w r :
  In (Called Start r) (trace W w) ->
  exists options rest,
    callsOf (trace W w)
    = [ (ParseFlags, None);
        (GetWatchNamespace, snd (k8sutil_GetWatchNamespace w));
        (GetConfig, None);
        (Become "kfctl-lock", None);
        (New (fst (config_GetConfig w)) options, None);
        (AddToScheme, None);
        (AddToManager, None) ] ++ rest
    /\ In (Start, r) rest
    /\ r = mgr_Start w.
Proof.
  bootstrap_cases W w.
  all: intros H.
  all: lazymatch goal with
       | |- context [publishAndRun] =>
           in_halves H idtac
             ltac:(rewrite callsOf_app; cbn [callsOf flat_map app];
                   eexists _, _; split; [reflexivity|];
                   split; [now apply in_callsOf | now apply tail_start in H])
       | _ => locate H
       end.
Qed.

(** X8 in the scenario where every collaborator succeeds. *)
Lemma start_only_after_registration_witness :
  In (Called Start None) (trace Scenario.watched Scenario.healthy)
  /\ exists options rest,
       callsOf (trace Scenario.watched Scenario.healthy)
       = [ (ParseFlags, None);
           (GetWatchNamespace, None);
           (GetConfig, None);
           (Become "kfctl-lock", None);
           (New (Some (mkRestConfig "https://10.0.0.1:443")) options, None);
           (AddToScheme, None);
           (AddToManager, None) ] ++ rest
       /\ In (Start, None) rest.
Proof.
  assert (H : In (Called Start None)
                 (trace Scenario.watched Scenario.healthy)).
  { vm_compute. tauto. }
  split; [exact H|].
  destruct (start_only_after_registration _ _ _ H)
    as [options [rest [Hcalls [Hin _]]]].
  exists options, rest. split; [exact Hcalls | exact Hin].
Defined.

(** X9. When the watch namespace cannot be read, the error is logged as a
    warning and the start-up goes on: the next step is the call reading the
    API client configuration. *)
Theorem namespace_failure_is_a_warning W w e :
  In (Called GetWatchNamespace (Some e)) (trace W w) ->
  occursIn
    [ Called GetWatchNamespace (Some e);
      Logged WarnLevel
        "Failed to get watch watchNamespace. The manager will watch and manage resources in all Namespaces. Error %v."
        [ArgError e];
      Called GetConfig (snd (config_GetConfig w)) ]
    (trace W w).
Proof.
  bootstrap_cases W w.
  all: intros H.
  all: lazymatch goal with
       | |- context [publishAndRun] =>
           in_halves H
             ltac:(injection H as <-; apply occursIn_app_l; occurs_in)
             ltac:(not_in_tail H)
       | _ => locate H; injection H as <-; occurs_in
       end.
Qed.

(** X9 in the scenario where the watch namespace cannot be read. *)
Lemma namespace_failure_is_a_warning_witness :
  In (Called GetWatchNamespace (Some (ErrOther "WATCH_NAMESPACE must be set")))
     (trace Scenario.watched Scenario.noWatchNamespace)
  /\ In (Called GetConfig None)
        (trace Scenario.watched Scenario.noWatchNamespace).
Proof.
  assert (H : In (Called GetWatchNamespace
                    (Some (ErrOther "WATCH_NAMESPACE must be set")))
                 (trace Scenario.watched Scenario.noWatchNamespace)).
  { vm_compute. tauto. }
  split; [exact H|].
  destruct (namespace_failure_is_a_warning _ _ _ H) as [pre [post Heq]].
  rewrite Heq. apply in_or_app. right. cbn [app In]. tauto.
Defined.


(** The call generating the custom-resource metrics, in the second half. *)
Lemma tail_cr_metrics W w cfg0 cfg ns filteredGVK host port r :
  In (Called (GenerateAndServeCRMetrics cfg ns filteredGVK host port) r)
     (fst (publishAndRun W w cfg0)) ->
  cfg = cfg0
  /\ ns = [fst (k8sutil_GetOperatorNamespace_serveCRMetrics w)]
  /\ filteredGVK
     = filterGKVsFromAddToScheme W (fst (k8sutil_GetGVKsFromAddToScheme w))
  /\ host = metricsHost /\ port = operatorMetricsPort
  /\ snd (k8sutil_GetGVKsFromAddToScheme w) = None
  /\ snd (k8sutil_GetOperatorNamespace_serveCRMetrics w) = None
  /\ r = kubemetrics_GenerateAndServeCRMetrics w cfg ns filteredGVK host port.
Proof.
  tail_cases W w cfg0.
  all: intros H; locate H.
  all: injection H as <- <- <- <- <- <-.
  all: repeat split; try reflexivity; symmetry; assumption.
Qed.

(** The two calls creating the metrics Service and the ServiceMonitors, in
    the second half. *)
Lemma tail_service_calls W w cfg :
  let created := metrics_CreateMetricsService w cfg servicePorts in
  let operatorNamespace := fst (k8sutil_GetOperatorNamespace_main w) in
  occursIn
    [ Called (CreateMetricsService cfg servicePorts) (snd created) ]
    (fst (publishAndRun W w cfg))
  /\ In (Called (CreateServiceMonitors cfg operatorNamespace [fst created])
           (metrics_CreateServiceMonitors w cfg operatorNamespace
              [fst created]))
        (fst (publishAndRun W w cfg))
  /\ (forall cfg' ns' services' r',
        In (Called (CreateServiceMonitors cfg' ns' services') r')
           (fst (publishAndRun W w cfg)) ->
        cfg' = cfg /\ ns' = operatorNamespace /\ services' = [fst created]).
Proof.
  cbv zeta. tail_cases W w cfg.
  all: repeat match goal with
              | Heq : ?answer = _ |- context [?answer] => rewrite Heq
              end.
  all: split; [occurs_in|].
  all: split; [cbn [In]; tauto|].
  all: intros cfg' ns' services' r' H; locate H.
  all: injection H as <- <- <- <-; repeat split; reflexivity.
Qed.

(** X10. Custom-resource metrics are generated only after both the GVK list
    and the operator namespace were obtained without error, and always for
    that one namespace, on host 0.0.0.0 and port 8686, for the filtered GVK
    list: every descriptor handed to the metrics generator is one of the
    descriptors of the scheme and matches a watched resource. *)
Theorem cr_metrics_only_for_watched_kinds
    W w cfg ns filteredGVK host port r :
  In (Called (GenerateAndServeCRMetrics cfg ns filteredGVK host port) r)
     (trace W w) ->
  cfg = fst (config_GetConfig w)
  /\ ns = [fst (k8sutil_GetOperatorNamespace_serveCRMetrics w)]
  /\ host = "0.0.0.0" /\ port = 8686
  /\ snd (k8sutil_GetGVKsFromAddToScheme w) = None
  /\ snd (k8sutil_GetOperatorNamespace_serveCRMetrics w) = None
  /\ filteredGVK
     = filterGKVsFromAddToScheme W (fst (k8sutil_GetGVKsFromAddToScheme w))
  /\ (forall g, In g filteredGVK ->
        In g (fst (k8sutil_GetGVKsFromAddToScheme w))
        /\ exists s, In s W /\ specMatches g s).
Proof.
  bootstrap_cases W w.
  all: intros H.
  all: lazymatch type of H with
       | context [publishAndRun] =>
           in_halves H idtac
             ltac:(destruct (tail_cr_metrics _ _ _ _ _ _ _ _ _ H)
                     as [-> [-> [-> [-> [-> [Hg [Hn _]]]]]]];
                   repeat (split; [first [reflexivity | assumption]|]);
                   intros g Hin; apply in_filter_iff in Hin;
                   destruct Hin as [HgD [s [HsW Hm]]];
                   split; [assumption|]; exists s;
                   split; [assumption | now apply matchOf_specMatches])
       | _ => locate H
       end.
Qed.

(** X10 in the scenario where every collaborator succeeds. *)
Lemma cr_metrics_only_for_watched_kinds_witness :
  In (Called (GenerateAndServeCRMetrics
                (Some (mkRestConfig "https://10.0.0.1:443")) ["kubeflow"]
                [GVK.mkGVK "a" "v1" "Foo"; GVK.mkGVK "a" "v1" "Baz"]
                "0.0.0.0" 8686) None)
     (trace Scenario.watched Scenario.healthy)
  /\ (forall g, In g [GVK.mkGVK "a" "v1" "Foo"; GVK.mkGVK "a" "v1" "Baz"] ->
                In g Scenario.registered).
Proof.
  assert (H : In (Called (GenerateAndServeCRMetrics
                            (Some (mkRestConfig "https://10.0.0.1:443"))
                            ["kubeflow"]
                            [GVK.mkGVK "a" "v1" "Foo"; GVK.mkGVK "a" "v1" "Baz"]
                            "0.0.0.0" 8686) None)
                 (trace Scenario.watched Scenario.healthy)).
  { vm_compute. tauto. }
  split; [exact H|].
  destruct (cr_metrics_only_for_watched_kinds _ _ _ _ _ _ _ _ H)
    as [_ [_ [_ [_ [_ [_ [_ Hall]]]]]]].
  intros g Hg. exact (proj1 (Hall g Hg)).
Defined.

(** X11. Once the controllers are registered, the metrics Service and the
    ServiceMonitors are always requested, whatever failed before in the
    metrics steps: [CreateServiceMonitors] is called with the namespace that
    [GetOperatorNamespace] returned (its error is ignored) and with the one
    service that [CreateMetricsService] returned, even when that call
    failed; it is never called with anything else. *)
Theorem service_monitors_always_requested W w :
  In (Called AddToManager None) (trace W w) ->
  let cfg := fst (config_GetConfig w) in
  let created := metrics_CreateMetricsService w cfg servicePorts in
  let operatorNamespace := fst (k8sutil_GetOperatorNamespace_main w) in
  In (Called (CreateMetricsService cfg servicePorts) (snd created)) (trace W w)
  /\ In (Called (CreateServiceMonitors cfg operatorNamespace [fst created])
           (metrics_CreateServiceMonitors w cfg operatorNamespace
              [fst created]))
        (trace W w)
  /\ (forall cfg' ns' services' r',
        In (Called (CreateServiceMonitors cfg' ns' services') r') (trace W w) ->
        cfg' = cfg /\ ns' = operatorNamespace /\ services' = [fst created]).
Proof.
  cbv zeta. bootstrap_cases W w.
  all: intros H.
  all: lazymatch goal with
       | |- context [publishAndRun] =>
           clear H;
           match goal with
           | |- context [publishAndRun _ _ ?c] =>
               destruct (tail_service_calls W w c) as [Hsvc [Hsm Honly]]
           end;
           split; [apply in_or_app; right; now apply occursIn_in|];
           split; [apply in_or_app; now right|];
           intros cfg' ns' services' r' H;
           in_halves H idtac ltac:(now apply Honly in H)
       | _ => locate H
       end.
Qed.

(** X11 in the scenario where the metrics Service cannot be created. *)
Lemma service_monitors_always_requested_witness :
  In (Called AddToManager None)
     (trace Scenario.watched Scenario.noMetricsService)
  /\ In (Called (CreateServiceMonitors
                   (Some (mkRestConfig "https://10.0.0.1:443")) "" [None]) None)
        (trace Scenario.watched Scenario.noMetricsService).
Proof.
  assert (H : In (Called AddToManager None)
                 (trace Scenario.watched Scenario.noMetricsService)).
  { vm_compute. tauto. }
  split; [exact H|].
  exact (proj1 (proj2
    (service_monitors_always_requested
       Scenario.watched Scenario.noMetricsService H))).
Defined.


(** X12. The options handed to [manager.New]: the configuration is the one
    [GetConfig] returned, the metrics address is 0.0.0.0:8383, and the
    Namespace option never contains a comma. A multi-namespace cache and a
    Namespace are never set together: with a cache builder the Namespace is
    empty and the builder holds one name more than the watch namespace has
    commas (empty names included, nothing trimmed), which joined by commas
    give the watch namespace back; without one the Namespace is the watch
    namespace itself. *)
Theorem manager_options_invariant W w cfg o r :
  In (Called (New cfg o) r) (trace W w) ->
  let watchNamespace := fst (k8sutil_GetWatchNamespace w) in
  cfg = fst (config_GetConfig w)
  /\ r = manager_New w cfg o
  /\ MapperProvider o = Some NewDynamicRESTMapper
  /\ MetricsBindAddress o = "0.0.0.0:8383"
  /\ ~ In comma (list_ascii_of_string (Namespace o))
  /\ (NewCache o = None -> Namespace o = watchNamespace)
  /\ (forall names, NewCache o = Some (MultiNamespacedCacheBuilder names) ->
        Namespace o = ""
        /\ String.concat "," names = watchNamespace
        /\ List.length names
           = S (count_occ ascii_dec (list_ascii_of_string watchNamespace)
                  comma)
        /\ (2 <= List.length names)%nat).
Proof.
  cbv zeta. bootstrap_cases W w.
  all: intros H.
  all: lazymatch type of H with
       | context [publishAndRun] => in_halves H idtac ltac:(not_in_tail H)
       | _ => locate H
       end.
  all: injection H as <- <- <-.
  all: repeat match goal with
              | Heq : ?answer = _ |- context [?answer] => rewrite Heq
              end.
  all: cbn [Namespace MapperProvider MetricsBindAddress NewCache].
  all: split; [reflexivity|]; split; [reflexivity|];
       split; [reflexivity|]; split; [reflexivity|].
  all: match goal with
       | Hc : containsByte comma _ = true |- _ =>
           split; [simpl; tauto|]; split; [discriminate|];
           intros names Hn; injection Hn as <-;
           split; [reflexivity|];
           split; [apply concat_splitByte|];
           unfold strings_Split_comma; rewrite splitByte_length;
           split; [reflexivity|];
           apply containsByte_In, (count_occ_In ascii_dec) in Hc; lia
       | Hc : containsByte comma _ = false |- _ =>
           split; [intros Hin; apply containsByte_In in Hin; congruence|];
           split; [reflexivity | discriminate]
       end.
Qed.

(** X12 in the scenario where every collaborator succeeds and the watch
    namespace is "team-a,team-b". *)
Lemma manager_options_invariant_witness :
  In (Called (New (Some (mkRestConfig "https://10.0.0.1:443"))
                {| Namespace := "";
                   MapperProvider := Some NewDynamicRESTMapper;
                   MetricsBindAddress := "0.0.0.0:8383";
                   NewCache := Some (MultiNamespacedCacheBuilder
                                       ["team-a"%string; "team-b"%string]) |})
             None)
     (trace Scenario.watched Scenario.healthy)
  /\ String.concat "," ["team-a"%string; "team-b"%string]
     = fst (k8sutil_GetWatchNamespace Scenario.healthy).
Proof.
  assert (H : In (Called (New (Some (mkRestConfig "https://10.0.0.1:443"))
                {| Namespace := "";
                   MapperProvider := Some NewDynamicRESTMapper;
                   MetricsBindAddress := "0.0.0.0:8383";
                   NewCache := Some (MultiNamespacedCacheBuilder
                                       ["team-a"%string; "team-b"%string]) |})
             None)
     (trace Scenario.watched Scenario.healthy)).
  { vm_compute. tauto. }
  split; [exact H|].
  destruct (manager_options_invariant _ _ _ _ _ H)
    as [_ [_ [_ [_ [_ [_ Hmulti]]]]]].
  exact (proj1 (proj2 (Hmulti _ eq_refl))).
Defined.

(** Find a failed call in a concrete trace. *)
Ltac failed_call := cbn [In]; repeat (first [left; reflexivity | right]).

(** The lines of the second half that are not at the info level are at the
    error level and carry the error of a call of that half. *)
Lemma tail_error_lines W w cfg lvl format args :
  In (Logged lvl format args) (fst (publishAndRun W w cfg)) ->
  lvl <> InfoLevel ->
  lvl = ErrorLevel
  /\ exists c e, args = [ArgError e]
                 /\ In (Called c (Some e)) (fst (publishAndRun W w cfg)).
Proof.
  tail_cases W w cfg.
  all: intros H Hlvl; locate H.
  all: injection H as <- <- <-; try (now destruct Hlvl).
  all: split; [reflexivity|]; eexists _, _; split; [reflexivity|].
  all: failed_call.
Qed.

(** X13. A line is logged at the warning or error level only for an error
    that a call of the run returned, and the line carries that error; a
    warning is only logged for the failure to read the watch namespace. So a
    run in which no call fails logs at the info level only. *)
Theorem error_lines_have_a_cause W w lvl format args :
  In (Logged lvl format args) (trace W w) ->
  lvl <> InfoLevel ->
  exists c e,
    args = [ArgError e]
    /\ In (Called c (Some e)) (trace W w)
    /\ (lvl = WarnLevel -> c = GetWatchNamespace).
Proof.
  bootstrap_cases W w.
  all: intros H Hlvl.
  all: lazymatch type of H with
       | context [publishAndRun] =>
           in_halves H
             ltac:(injection H as <- <- <-;
                   first [ now destruct Hlvl
                         | eexists _, _; split; [reflexivity|];
                           split; [apply in_or_app; left; failed_call
                                  | reflexivity] ])
             ltac:(destruct (tail_error_lines _ _ _ _ _ _ H Hlvl)
                     as [-> [fc [fe [-> Hin]]]];
                   exists fc, fe; split; [reflexivity|];
                   split; [apply in_or_app; now right | discriminate])
       | _ =>
           locate H;
           (injection H as <- <- <-;
            first [ now destruct Hlvl
                  | eexists _, _; split; [reflexivity|];
                    split; [failed_call
                           | first [reflexivity | discriminate]] ])
       end.
Qed.

(** X13 in the scenario where leadership is not acquired. *)
Lemma error_lines_have_a_cause_witness :
  In (Logged ErrorLevel "Error: %v." [ArgError (ErrOther "lock is held")])
     (trace Scenario.watched Scenario.leaderLost)
  /\ ErrorLevel <> InfoLevel
  /\ exists c e,
       [ArgError (ErrOther "lock is held")] = [ArgError e]
       /\ In (Called c (Some e)) (trace Scenario.watched Scenario.leaderLost).
Proof.
  assert (H : In (Logged ErrorLevel "Error: %v."
                    [ArgError (ErrOther "lock is held")])
                 (trace Scenario.watched Scenario.leaderLost)).
  { vm_compute. tauto. }
  assert (Hlvl : ErrorLevel <> InfoLevel) by discriminate.
  split; [exact H|]. split; [exact Hlvl|].
  destruct (error_lines_have_a_cause _ _ _ _ _ H Hlvl)
    as [c [e [Hargs [Hin _]]]].
  exists c, e. split; [exact Hargs | exact Hin].
Defined.


(** The runs of [serveCRMetrics] in world [w], for a goal on its result. *)
Ltac serve_cases W w cfg :=
  pattern (serveCRMetrics W w cfg);
  let Q := fresh "Q" in
  match goal with |- ?P _ => set (Q := P) end;
  enumerate_tail w;
  subst Q; cbn beta; cbn [fst snd].

(** X14. [serveCRMetrics] never exits the process. It makes at most three
    calls, stops at the first one that fails and returns its error: a failed
    call is the last event of the function, and the function returns [nil]
    exactly when none of its calls failed. *)
Theorem serveCRMetrics_stops_at_first_error W w cfg :
  exists r,
    snd (serveCRMetrics W w cfg) = Returned r
    /\ (List.length (fst (serveCRMetrics W w cfg)) <= 3)%nat
    /\ (forall c e, In (Called c (Some e)) (fst (serveCRMetrics W w cfg)) ->
          r = Some e
          /\ endsWith [Called c (Some e)] (fst (serveCRMetrics W w cfg)))
    /\ (forall e, r = Some e ->
          exists c, In (Called c (Some e)) (fst (serveCRMetrics W w cfg)))
    /\ (forall ev, In ev (fst (serveCRMetrics W w cfg)) ->
          exists c r', ev = Called c r'
                       /\ stageOf c = Some MetricsPublisher).
Proof.
  serve_cases W w cfg.
  all: eexists; split; [reflexivity|].
  all: split; [cbn [List.length]; lia|].
  all: split; [intros fc fe H; locate H;
               (injection H as <- <-; split; [reflexivity | ends_with])|].
  all: split; [intros fe Hr;
               first [ discriminate Hr
                     | injection Hr as <-; eexists; failed_call ]|].
  all: intros ev H; cbn [In] in H;
       repeat (destruct H as [<- | H]; [eexists _, _; split; reflexivity|]);
       contradiction.
Qed.

(** X15. [printVersion] never fails and logs four info lines (Go version, OS
    and architecture, operator-sdk version, Kubeflow version 1.1.0). Every run
    of [main] in which [pflag.Parse] returns, also one that exits later
    during start-up, begins with the parsing of the flags and these four
    lines, followed by the reading of the watch namespace; when [pflag.Parse]
    ends the process, nothing is logged. *)
Theorem version_banner_first W w :
  snd (printVersion w) = Returned tt
  /\ fst (printVersion w)
     = [ Logged InfoLevel "Go Version: %s" [ArgString (runtime_Version w)];
         Logged InfoLevel "Go OS/Arch: %s/%s"
           [ArgString (runtime_GOOS w); ArgString (runtime_GOARCH w)];
         Logged InfoLevel "Version of operator-sdk: %v"
           [ArgString (sdkVersion_Version w)];
         Logged InfoLevel "Kubeflow version: %v" [ArgString "1.1.0"] ]
  /\ match pflag_Parse w with
     | Some code => trace W w = [Exit code]
     | None =>
         exists rest,
           trace W w
           = Called ParseFlags None
             :: fst (printVersion w)
             ++ Called GetWatchNamespace (snd (k8sutil_GetWatchNamespace w))
             :: rest
     end.
Proof.
  split; [reflexivity|]. split; [reflexivity|].
  change (fst (printVersion w))
    with [ Logged InfoLevel "Go Version: %s" [ArgString (runtime_Version w)];
           Logged InfoLevel "Go OS/Arch: %s/%s"
             [ArgString (runtime_GOOS w); ArgString (runtime_GOARCH w)];
           Logged InfoLevel "Version of operator-sdk: %v"
             [ArgString (sdkVersion_Version w)];
           Logged InfoLevel "Kubeflow version: %v" [ArgString Version] ].
  bootstrap_cases W w.
  all: first [reflexivity | cbn [app]; eexists; reflexivity].
Qed.

(** The stages of the second half. *)
Lemma tail_stage_order W w cfg :
  StronglySorted le (stageRanks (fst (publishAndRun W w cfg)))
  /\ Forall (fun n => (4 <= n)%nat)
       (stageRanks (fst (publishAndRun W w cfg))).
Proof.
  tail_cases W w cfg.
  all: cbn [stageRanks flat_map stageOf stageRank app].
  all: split;
       repeat first [ apply SSorted_nil | apply SSorted_cons
                    | apply Forall_nil | apply Forall_cons | lia ].
Qed.

(** X16. The stages never run backwards: in every run the calls appear in
    the order Namespace Resolver, API client configuration, Leadership
    Coordinator, Manager Bootstrapper, Metrics Publisher, Run Loop. *)
Theorem stages_run_in_order W w :
  StronglySorted le (stageRanks (trace W w)).
Proof.
  bootstrap_cases W w.
  all: lazymatch goal with
       | |- context [publishAndRun] =>
           rewrite stageRanks_app;
           match goal with
           | |- context [publishAndRun _ _ ?c] =>
               destruct (tail_stage_order W w c) as [Hsorted Hlate]
           end;
           apply StronglySorted_le_app; [|exact Hsorted|];
           [ cbn [stageRanks flat_map stageOf stageRank app];
             repeat first [ apply SSorted_nil | apply SSorted_cons
                          | apply Forall_nil | apply Forall_cons | lia ]
           | intros early late Hearly Hlate';
             pose proof (proj1 (Forall_forall _ _) Hlate late Hlate') as H4;
             cbn [stageRanks flat_map stageOf stageRank app In] in Hearly;
             cbv beta in H4; lia ]
       | _ =>
           cbn [stageRanks flat_map stageOf stageRank app];
           repeat first [ apply SSorted_nil | apply SSorted_cons
                        | apply Forall_nil | apply Forall_cons | lia ]
       end.
Qed.
